(** * xdg_binary_cache: a shallow embedding of [BinaryDownloader]

    The development follows [src/xdg_binary_cache/__init__.py].  The Python
    methods read the process environment, touch the file system, fetch over
    the network, write log records and spawn a child process; here these
    effects act on an explicit [World], threaded through a state-and-exception
    monad [M].  Exceptions keep their Python names. *)

From Stdlib Require Import ZArith Ascii String List Lia.
From stdpp Require Import base option strings gmap fin_maps.

Local Open Scope Z_scope.

(** ** Strings and POSIX paths *)

Module Path.

Definition sep : ascii := "/"%char.

Definition is_empty (s : string) : bool :=
  match s with EmptyString => true | String _ _ => false end.

(** [s.startswith("/")] *)
Definition startswith_sep (s : string) : bool :=
  match s with
  | EmptyString => false
  | String c _ => Ascii.eqb c sep
  end.

(** [s.endswith("/")] *)
Fixpoint endswith_sep (s : string) : bool :=
  match s with
  | EmptyString => false
  | String c EmptyString => Ascii.eqb c sep
  | String _ r => endswith_sep r
  end.

(** One round of the loop of [posixpath.join]:
    [if b.startswith(sep): path = b
     elif not path or path.endswith(sep): path += b
     else: path += sep + b]. *)
Definition join2 (path b : string) : string :=
  if startswith_sep b then b
  else if is_empty path || endswith_sep path then path +:+ b
  else path +:+ String sep b.

(** [os.path.join(a, *p)] *)
Definition join (a : string) (p : list string) : string :=
  fold_left join2 p a.

(** [(p[:i], p[i:])] for [i = p.rfind("/") + 1]. *)
Fixpoint rsplit_sep (p : string) : string * string :=
  match p with
  | EmptyString => (EmptyString, EmptyString)
  | String c r =>
      let '(h, t) := rsplit_sep r in
      if negb (is_empty h) then (String c h, t)
      else if Ascii.eqb c sep then (String c EmptyString, t)
      else (EmptyString, String c t)
  end.

(** [s.rstrip("/")] *)
Fixpoint rstrip_sep (s : string) : string :=
  match s with
  | EmptyString => EmptyString
  | String c r =>
      let r' := rstrip_sep r in
      if is_empty r' && Ascii.eqb c sep then EmptyString else String c r'
  end.

(** [s == "/" * len(s)] *)
Fixpoint all_sep (s : string) : bool :=
  match s with
  | EmptyString => true
  | String c r => Ascii.eqb c sep && all_sep r
  end.

(** [posixpath.dirname]: the head up to the last slash, with its trailing
    slashes removed unless it consists of slashes only. *)
Definition dirname (p : string) : string :=
  let head := fst (rsplit_sep p) in
  if negb (is_empty head) && negb (all_sep head) then rstrip_sep head
  else head.

(** [posixpath.basename] *)
Definition basename (p : string) : string := snd (rsplit_sep p).

(** ["\0" in s]: a system call refuses such a path with [ValueError]
    before it looks at the file system. *)
Fixpoint has_nul (s : string) : bool :=
  match s with
  | EmptyString => false
  | String c r => Ascii.eqb c "000"%char || has_nul r
  end.

(** The chain [p, dirname p, dirname (dirname p), ...] of the directories
    that [os.makedirs p] has to provide, outermost first, computed from the
    text of [p]: every non-empty prefix of [p] that is followed by a slash
    and does not itself end in one, then [p]. *)
Fixpoint parents_go (seen : string) (rest : string) : list string :=
  match rest with
  | EmptyString => if is_empty seen then [] else [String.rev seen]
  | String c r =>
      let here :=
        if Ascii.eqb c sep && negb (is_empty seen) && negb (startswith_sep seen)
        then [String.rev seen] else [] in
      here ++ parents_go (String c seen) r
  end.

Definition parents (p : string) : list string :=
  (if startswith_sep p then [String sep EmptyString] else [])
    ++ parents_go EmptyString (rstrip_sep p).

End Path.

(** ** Python's truth value of an optional string, and [x or y] *)

Definition truthy (o : option string) : bool :=
  match o with
  | Some s => negb (Path.is_empty s)
  | None => false
  end.

(** Branching on the truth value of [o]: [t s] when [o] is the non-empty
    string [s], [e] when it is [None] or empty.  [if o: t(o) else: e], and
    [o or e] with [t] the identity. *)
Definition if_truthy {A} (o : option string) (t : string -> A) (e : A) : A :=
  match o with
  | Some s => if Path.is_empty s then e else t s
  | None => e
  end.

(** ** Exceptions and results *)

Inductive exn : Type :=
| KeyError (key : string)
| ValueError (msg : string)
| URLError (url : string)
| OSError (strerror : string) (filename : string)
| CalledProcessError (returncode : Z) (cmd : list string)
                     (output stderr : option string).

Inductive Result (A : Type) : Type :=
| Ok (a : A)
| Err (e : exn).
Arguments Ok {A} a.
Arguments Err {A} e.

(** ** [str.format] with keyword arguments

    The replacement fields of [REMOTE_URL] are plain names; the model covers
    literal text, the escapes [{{] and [}}], and [{name}] fields looked up
    among the keyword arguments. *)

Fixpoint kw_lookup (kw : list (string * string)) (name : string) : option string :=
  match kw with
  | [] => None
  | (k, v) :: kw' => if String.eqb k name then Some v else kw_lookup kw' name
  end.

Inductive piece : Type :=
| Lit (c : ascii)
| Field (name : string).

(** [field] is [Some n] while the characters of a field name are read, with
    [n] the name read so far in reverse. *)
Fixpoint parse_format (tmpl : string) (field : option string) : Result (list piece) :=
  match tmpl, field with
  | EmptyString, None => Ok []
  | EmptyString, Some _ => Err (ValueError "expected '}' before end of string")
  | String c rest, Some n =>
      if Ascii.eqb c "}" then
        match parse_format rest None with
        | Ok ps => Ok (Field (String.rev n) :: ps)
        | Err e => Err e
        end
      else parse_format rest (Some (String c n))
  | String c rest, None =>
      if Ascii.eqb c "{" then
        match rest with
        | String "{" rest' =>
            match parse_format rest' None with
            | Ok ps => Ok (Lit "{" :: ps)
            | Err e => Err e
            end
        | _ => parse_format rest (Some EmptyString)
        end
      else if Ascii.eqb c "}" then
        match rest with
        | String "}" rest' =>
            match parse_format rest' None with
            | Ok ps => Ok (Lit "}" :: ps)
            | Err e => Err e
            end
        | _ => Err (ValueError "Single '}' encountered in format string")
        end
      else
        match parse_format rest None with
        | Ok ps => Ok (Lit c :: ps)
        | Err e => Err e
        end
  end.

Fixpoint fill (ps : list piece) (kw : list (string * string)) : Result string :=
  match ps with
  | [] => Ok EmptyString
  | Lit c :: ps' =>
      match fill ps' kw with
      | Ok s => Ok (String c s)
      | Err e => Err e
      end
  | Field n :: ps' =>
      match kw_lookup kw n with
      | None => Err (KeyError n)
      | Some v =>
          match fill ps' kw with
          | Ok s => Ok (v +:+ s)
          | Err e => Err e
          end
      end
  end.

Definition str_format (tmpl : string) (kw : list (string * string)) : Result string :=
  match parse_format tmpl None with
  | Ok ps => fill ps kw
  | Err e => Err e
  end.


(** ** The host: environment, file system, network, processes, log *)

(** File-system entries carry their permission bits.  Paths are compared as
    strings: there is no normalisation and there are no symbolic links. *)
Inductive node : Type :=
| File (mode : Z) (data : string)
| Dir (mode : Z).

Definition node_mode (n : node) : Z :=
  match n with File m _ => m | Dir m => m end.

Definition is_dir (o : option node) : bool :=
  match o with Some (Dir _) => true | _ => false end.

(** Values of the keyword arguments handed through to [subprocess.run]. *)
Inductive kwval : Type :=
| PIPE
| DEVNULL
| STDOUT
| KwNone
| KwBool (b : bool)
| KwInt (z : Z)
| KwStr (s : string).

Inductive level : Type := INFO | WARNING.

Inductive logarg : Type :=
| ArgStr (s : string)
| ArgExn (e : exn).

Record LogRecord : Type := mkLog {
  log_level : level;
  log_msg : string;
  log_args : list logarg
}.

(** What [Popen(cmd, **kwargs).communicate()] and [poll()] yield: either the
    child ran to completion, or launching or waiting for it raised. *)
Inductive ProcOutcome : Type :=
| Exited (returncode : Z) (stdout stderr : option string)
| Raised (e : exn).

Record Spawn : Type := mkSpawn {
  spawn_cmd : list string;
  spawn_encoding : string;
  spawn_kwargs : gmap string kwval
}.

(** How the outside answers [urlretrieve(url)] for a URL that is not a
    [file:] URL: the whole body arrives; or the request is refused, that is,
    opening the URL (or creating the temporary file) raises; or the
    temporary file is created and part of the body written to it when
    reading raises or the body falls short of its announced length
    ([ContentTooShortError]). *)
Inductive Response : Type :=
| Served (body : string)
| Refused (e : exn)
| Truncated (partial : string) (e : exn).

(** The state of the host.  The first group is what the program changes or
    reads; [fetched], [spawned] and [records] are the traces of the network
    requests made, the child processes started and the log records emitted;
    the last group fixes how the outside answers: what a URL serves, which
    name the next temporary file gets, which file-system calls are refused,
    and what a child process does.  The program never changes that group. *)
Record World : Type := mkWorld {
  environ : gmap string string;
  fs : gmap string node;
  ntemp : nat;
  fetched : list string;
  spawned : list Spawn;
  records : list LogRecord;
  umask : Z;
  urlopen : string -> Response;
  tempname : nat -> string;
  mkdir_denied : string -> bool;
  rename_denied : string -> string -> bool;
  chmod_denied : string -> bool;
  popen : gmap string node -> Spawn -> ProcOutcome
}.

Definition set_fs (f : gmap string node) (w : World) : World :=
  mkWorld (environ w) f (ntemp w) (fetched w) (spawned w) (records w)
          (umask w) (urlopen w) (tempname w) (mkdir_denied w)
          (rename_denied w) (chmod_denied w) (popen w).

Definition set_ntemp (n : nat) (w : World) : World :=
  mkWorld (environ w) (fs w) n (fetched w) (spawned w) (records w)
          (umask w) (urlopen w) (tempname w) (mkdir_denied w)
          (rename_denied w) (chmod_denied w) (popen w).

Definition set_fetched (l : list string) (w : World) : World :=
  mkWorld (environ w) (fs w) (ntemp w) l (spawned w) (records w)
          (umask w) (urlopen w) (tempname w) (mkdir_denied w)
          (rename_denied w) (chmod_denied w) (popen w).

Definition set_spawned (l : list Spawn) (w : World) : World :=
  mkWorld (environ w) (fs w) (ntemp w) (fetched w) l (records w)
          (umask w) (urlopen w) (tempname w) (mkdir_denied w)
          (rename_denied w) (chmod_denied w) (popen w).

Definition set_records (l : list LogRecord) (w : World) : World :=
  mkWorld (environ w) (fs w) (ntemp w) (fetched w) (spawned w) l
          (umask w) (urlopen w) (tempname w) (mkdir_denied w)
          (rename_denied w) (chmod_denied w) (popen w).

(** ** The monad of effectful code: state and exceptions

    An exception ends the computation; what was done to the world before it
    was raised stays done. *)

Definition M (A : Type) : Type := World -> Result A * World.

Definition ret {A} (a : A) : M A := fun w => (Ok a, w).

Definition raise {A} (e : exn) : M A := fun w => (Err e, w).

Definition bind {A B} (m : M A) (k : A -> M B) : M B :=
  fun w =>
    match m w with
    | (Ok a, w') => k a w'
    | (Err e, w') => (Err e, w')
    end.

(** [try: m except OSError as ex: h ex] *)
Definition except_OSError {A} (m : M A) (h : exn -> M A) : M A :=
  fun w =>
    match m w with
    | (Err (OSError s f), w') => h (OSError s f) w'
    | r => r
    end.

Declare Scope py_scope.
Delimit Scope py_scope with py.
Notation "x <- m ;; k" := (bind m (fun x => k))
  (at level 100, m at next level, right associativity) : py_scope.
Notation "m ;;; k" := (bind m (fun _ => k))
  (at level 100, right associativity) : py_scope.
Local Open Scope py_scope.

(** *** Primitives *)

(** [os.environ[key]] *)
Definition os_environ_getitem (key : string) : M string :=
  fun w =>
    match environ w !! key with
    | Some v => (Ok v, w)
    | None => (Err (KeyError key), w)
    end.

(** [os.environ.get(key, default)]; the caller has evaluated [default]. *)
Definition os_environ_get (key dflt : string) : M string :=
  fun w => (Ok (default dflt (environ w !! key)), w).

(** [os.path.exists(p)]; no entry of a file system has a NUL in its name,
    and for such a path the answer is [False]. *)
Definition os_path_exists (p : string) : M bool :=
  fun w => (Ok (bool_decide (is_Some (fs w !! p))), w).

(** [LOGGER.info(msg, *args)] and [LOGGER.warning(msg, *args)] *)
Definition LOGGER_log (l : level) (m : string) (a : list logarg) : M unit :=
  fun w => (Ok tt, set_records (records w ++ [mkLog l m a]) w).

Definition LOGGER_info := LOGGER_log INFO.
Definition LOGGER_warning := LOGGER_log WARNING.

(** [urllib.request.urlretrieve(url)] with no file name given, for a URL
    that is not a [file:] URL (for those no copy is made and the local path
    itself is returned): the request is made; unless it is refused, a new
    temporary file is created with mode 0600 and what arrives of the body is
    written to it; the name of the file is returned when the whole body
    arrived, and else the error is raised with the file left behind. *)
Definition urlretrieve (url : string) : M string :=
  fun w =>
    let w1 := set_fetched (fetched w ++ [url]) w in
    let tmp := tempname w (ntemp w) in
    match urlopen w url with
    | Refused e => (Err e, w1)
    | Served body =>
        (Ok tmp, set_fs (<[tmp := File 384 body]> (fs w1))
                        (set_ntemp (S (ntemp w)) w1))
    | Truncated partial e =>
        (Err e, set_fs (<[tmp := File 384 partial]> (fs w1))
                       (set_ntemp (S (ntemp w)) w1))
    end.

(** The directories of [os.makedirs(_, exist_ok=True)], outermost first.
    A name with an embedded NUL is refused with [ValueError]; below a
    regular file nothing can be made ([NotADirectoryError]); an existing
    directory is kept; a regular file in the place of the last directory, or
    a refused [mkdir], is an [OSError]. *)
Fixpoint mkdir_all (under_file : bool) (ps : list string) : M unit :=
  match ps with
  | [] => ret tt
  | p :: ps' =>
      fun w =>
        if Path.has_nul p then (Err (ValueError "embedded null byte"), w)
        else if under_file then (Err (OSError "Not a directory" p), w)
        else
          match fs w !! p with
          | Some (Dir _) => mkdir_all false ps' w
          | Some (File _ _) =>
              match ps' with
              | [] => (Err (OSError "File exists" p), w)
              | _ :: _ => mkdir_all true ps' w
              end
          | None =>
              if mkdir_denied w p then (Err (OSError "Permission denied" p), w)
              else mkdir_all false ps'
                     (set_fs (<[p := Dir (Z.land 511 (Z.lnot (umask w)))]> (fs w)) w)
          end
  end.

(** [os.makedirs(name, exist_ok=True)] *)
Definition os_makedirs (name : string) : M unit :=
  if Path.is_empty name then raise (OSError "No such file or directory" name)
  else mkdir_all false (Path.parents name).

(** [shutil.move(src, dst)] for a regular file [src]: into [dst] when that is
    a directory (refused when the name is taken there), else renamed to [dst],
    replacing what was there.  A NUL in either path makes [os.rename] raise
    [ValueError].  Whether [dst] is a directory is read off the entry under
    the text of [dst]; a [dst] that names a directory by another spelling
    (a trailing slash, a last component [.] or [..]) is not covered, and the
    statements that depend on it exclude such a [dst]. *)
Definition shutil_move (src dst : string) : M unit :=
  fun w =>
    if Path.has_nul src || Path.has_nul dst
    then (Err (ValueError "embedded null byte"), w)
    else
    match fs w !! src with
    | None => (Err (OSError "No such file or directory" src), w)
    | Some (Dir _) => (Err (OSError "Is a directory" src), w)
    | Some (File m body) =>
        let real_dst :=
          if is_dir (fs w !! dst)
          then Path.join2 dst (Path.basename (Path.rstrip_sep src))
          else dst in
        if is_dir (fs w !! dst) && bool_decide (is_Some (fs w !! real_dst))
        then (Err (OSError "Destination path already exists" real_dst), w)
        else if rename_denied w src real_dst
        then (Err (OSError "Permission denied" real_dst), w)
        else (Ok tt, set_fs (<[real_dst := File m body]> (delete src (fs w))) w)
    end.

(** [os.chmod(path, mode)]; a path with an embedded NUL is a [ValueError],
    not an [OSError]. *)
Definition os_chmod (path : string) (mode : Z) : M unit :=
  fun w =>
    if Path.has_nul path then (Err (ValueError "embedded null byte"), w)
    else
    match fs w !! path with
    | None => (Err (OSError "No such file or directory" path), w)
    | Some n =>
        if chmod_denied w path
        then (Err (OSError "Operation not permitted" path), w)
        else
          let n' := match n with
                    | File _ body => File mode body
                    | Dir _ => Dir mode
                    end in
          (Ok tt, set_fs (<[path := n']> (fs w)) w)
    end.

(** [subprocess.CompletedProcess] *)
Record CompletedProcess : Type := mkCompleted {
  cp_args : list string;
  cp_returncode : Z;
  cp_stdout : option string;
  cp_stderr : option string
}.

(** [subprocess.run(cmd, check=check, encoding=encoding, **kwargs)]: the
    child is started and awaited; [if check and retcode:] raises
    [CalledProcessError(retcode, cmd, output=stdout, stderr=stderr)]. *)
Definition subprocess_run (cmd : list string) (check : bool) (encoding : string)
    (kwargs : gmap string kwval) : M CompletedProcess :=
  fun w =>
    let sp := mkSpawn cmd encoding kwargs in
    let w1 := set_spawned (spawned w ++ [sp]) w in
    match popen w (fs w) sp with
    | Raised e => (Err e, w1)
    | Exited rc out err =>
        if check && negb (rc =? 0)
        then (Err (CalledProcessError rc cmd out err), w1)
        else (Ok (mkCompleted cmd rc out err), w1)
    end.

(** The permission bits of [stat]. *)
Module stat.
Definition S_IRUSR : Z := 256.
Definition S_IWUSR : Z := 128.
Definition S_IXUSR : Z := 64.
Definition S_IRGRP : Z := 32.
Definition S_IXGRP : Z := 8.
Definition S_IROTH : Z := 4.
Definition S_IXOTH : Z := 1.
End stat.

(** ** The program *)

(** The pattern that defines where to find the binary remotely. *)
Definition REMOTE_URL : string :=
  "https://storage.googleapis.com/pre-commit-assets/" +:+
  "{binary_name}/{version}/bin/{binary_name}".

(** The instance state of [BinaryDownloader].  [_add_arguments_called] is
    set by [add_arguments], which registers the two override options with
    an [argparse] parser. *)
Record BinaryDownloader : Type := mkBinaryDownloader {
  _add_arguments_called : bool;
  _handle_arguments_called : bool;
  binary_name : string;
  override_path : option string;
  override_url : option string;
  version : string
}.

Definition __init__ (binary_name version : string) : BinaryDownloader :=
  {| _add_arguments_called := false;
     _handle_arguments_called := false;
     binary_name := binary_name;
     override_path := None;
     override_url := None;
     version := version |}.

(** [getattr(args, name, None)] on a parsed [argparse.Namespace] whose
    attributes are strings or [None]. *)
Definition getattr (ns : gmap string (option string)) (name : string)
    (dflt : option string) : option string :=
  default dflt (ns !! name).

Definition handle_arguments (self : BinaryDownloader)
    (ns : gmap string (option string)) : BinaryDownloader :=
  {| _add_arguments_called := _add_arguments_called self;
     _handle_arguments_called := true;
     binary_name := binary_name self;
     override_path :=
       getattr ns ("override_" +:+ binary_name self +:+ "_path") None;
     override_url :=
       getattr ns ("override_" +:+ binary_name self +:+ "_url") None;
     version := version self |}.

(** Get the path to the root directory for the cached binary on the local
    host.  The default handed to [os.environ.get] is an argument of the
    call, so [os.environ["HOME"]] is read first. *)
Definition cached_binary_root (self : BinaryDownloader) : M string :=
  home <- os_environ_getitem "HOME" ;;
  cached_path <- os_environ_get "XDG_CACHE_HOME" (Path.join home [".cache"]) ;;
  ret (Path.join cached_path [binary_name self]).

(** Get the path to the cached binary file on the local host. *)
Definition cached_binary_path (self : BinaryDownloader) : M string :=
  root <- cached_binary_root self ;;
  ret (Path.join root [version self; binary_name self]).

Definition lift {A} (r : Result A) : M A := fun w => (r, w).

(** Get the remote URL to use when downloading the binary. *)
Definition remote_binary_url (self : BinaryDownloader) : M string :=
  if_truthy (override_url self) ret
    (lift (str_format REMOTE_URL
             [("binary_name", binary_name self); ("version", version self)])).

(** Set the correct executable file permission flags. *)
Definition fix_file_permissions (target_path : string) : M unit :=
  except_OSError
    (os_chmod target_path
       (Z.lor stat.S_IRUSR (Z.lor stat.S_IWUSR (Z.lor stat.S_IXUSR
        (Z.lor stat.S_IRGRP (Z.lor stat.S_IXGRP
        (Z.lor stat.S_IROTH stat.S_IXOTH)))))))
    (fun ex =>
       LOGGER_warning "Failed to set chmod 755 for %s: %s"
                      [ArgStr target_path; ArgExn ex]).

(** Download the remote binary to the local cache. *)
Definition download_binary (self : BinaryDownloader) : M string :=
  target_path <- cached_binary_path self ;;
  found <- os_path_exists target_path ;;
  if (found : bool) then
    LOGGER_info "Already found %s at %s"
                [ArgStr (binary_name self); ArgStr target_path] ;;;
    ret target_path
  else
    remote_url <- remote_binary_url self ;;
    local_filename <- urlretrieve remote_url ;;
    os_makedirs (Path.dirname target_path) ;;;
    shutil_move local_filename target_path ;;;
    fix_file_permissions target_path ;;;
    LOGGER_info "Downloaded %s from %s to %s and then moved to %s"
                [ArgStr (binary_name self); ArgStr remote_url;
                 ArgStr local_filename; ArgStr target_path] ;;;
    ret target_path.

(** [run_binary], lines 133-137: the warning about missing set-up. *)
Definition warn_unconfigured (self : BinaryDownloader) : M unit :=
  if negb (forallb id [_handle_arguments_called self; _add_arguments_called self])
  then LOGGER_warning
         ("Looks like you haven't called BinaryDownloader.add_arguments() and " +:+
          "BinaryDownloader.handle_arguments(). This means your users can't " +:+
          "customize the binary downloader behavior.") []
  else ret tt.

(** [run_binary], lines 138-141: which binary to run. *)
Definition resolve_binary_path (self : BinaryDownloader) : M string :=
  if_truthy (override_path self) ret (download_binary self).

(** [run_binary], lines 144-148: [capture_output] spelled as two pipes. *)
Definition translate_capture (capture_output : bool)
    (kwargs : gmap string kwval) : M (gmap string kwval) :=
  if capture_output then
    if bool_decide (is_Some (kwargs !! "stderr"))
       || bool_decide (is_Some (kwargs !! "stdout"))
    then raise (ValueError "Do not specify both capture_output and stdout/stderr")
    else ret (<["stdout" := PIPE]> (<["stderr" := PIPE]> kwargs))
  else ret kwargs.

(** Execute the downloaded binary, wait for execution, return the result. *)
Definition run_binary (self : BinaryDownloader) (args : list string)
    (capture_output check : bool) (encoding : string)
    (kwargs : gmap string kwval) : M CompletedProcess :=
  warn_unconfigured self ;;;
  binary_path <- resolve_binary_path self ;;
  let cmd := binary_path :: args in
  kwargs' <- translate_capture capture_output kwargs ;;
  subprocess_run cmd check encoding kwargs'.

(** Attribute assignment on the instance. *)
Definition with_override_path (o : option string) (self : BinaryDownloader)
    : BinaryDownloader :=
  {| _add_arguments_called := _add_arguments_called self;
     _handle_arguments_called := _handle_arguments_called self;
     binary_name := binary_name self;
     override_path := o;
     override_url := override_url self;
     version := version self |}.

Definition with_override_url (o : option string) (self : BinaryDownloader)
    : BinaryDownloader :=
  {| _add_arguments_called := _add_arguments_called self;
     _handle_arguments_called := _handle_arguments_called self;
     binary_name := binary_name self;
     override_path := override_path self;
     override_url := o;
     version := version self |}.

(** ** The cache layout as the specification writes it

    These two definitions follow the specification's words, to be compared
    with what [cached_binary_path] computes: the cache root is the value of
    XDG_CACHE_HOME if set and otherwise <HOME>/.cache, and the cache path is
    <cache_root>/<binary_name>/<version>/<binary_name>. *)

Definition spec_cache_root (env : gmap string string) : option string :=
  match env !! "XDG_CACHE_HOME" with
  | Some x => Some x
  | None => (fun home => home +:+ "/.cache") <$> env !! "HOME"
  end.

Definition spec_cache_path (cache_root name ver : string) : string :=
  cache_root +:+ "/" +:+ name +:+ "/" +:+ ver +:+ "/" +:+ name.

(** The default remote URL as the specification writes it. *)
Definition spec_default_url (name ver : string) : string :=
  "https://storage.googleapis.com/pre-commit-assets/" +:+
  name +:+ "/" +:+ ver +:+ "/bin/" +:+ name.

(** A string that [os.path.join] extends with a slash: not empty and not
    ending in one. *)
Definition joinable (s : string) : bool :=
  negb (Path.is_empty s) && negb (Path.endswith_sep s).

(** A plain path segment: joinable and not starting with a slash. *)
Definition segment (s : string) : bool :=
  negb (Path.startswith_sep s) && joinable s.

(** ** Hosts used in the examples *)

Module Hosts.

Definition serve_all (url : string) : Response :=
  Served ("contents of " +:+ url).

Definition serve_none (url : string) : Response :=
  Refused (URLError url).

(** A host with the given environment and files: temporary files are
    numbered upwards from /tmp/tmp0 in unary, no file-system call is
    refused, and every child process exits with [rc]. *)
Definition host (env : gmap string string) (files : gmap string node)
    (serve : string -> Response) (rc : Z) : World :=
  {| environ := env;
     fs := files;
     ntemp := 0;
     fetched := [];
     spawned := [];
     records := [];
     umask := 18;
     urlopen := serve;
     tempname := fun n => "/tmp/tmp" +:+ String.string_of_list_ascii (repeat "0"%char (S n));
     mkdir_denied := fun _ => false;
     rename_denied := fun _ _ => false;
     chmod_denied := fun _ => false;
     popen := fun _ _ => Exited rc (Some "out") (Some "err") |}.

(** The same host, except that every [chmod] is refused. *)
Definition refuse_chmod (w : World) : World :=
  mkWorld (environ w) (fs w) (ntemp w) (fetched w) (spawned w) (records w)
          (umask w) (urlopen w) (tempname w) (mkdir_denied w)
          (rename_denied w) (fun _ => true) (popen w).

Definition env_xdg : gmap string string :=
  {[ "HOME" := "/home/u"; "XDG_CACHE_HOME" := "/tmp/c" ]}.

Definition env_home : gmap string string := {[ "HOME" := "/home/u" ]}.

Definition env_xdg_only : gmap string string :=
  {[ "XDG_CACHE_HOME" := "/tmp/c" ]}.

Definition env_xdg_slash : gmap string string :=
  {[ "HOME" := "/home/u"; "XDG_CACHE_HOME" := "/tmp/c/" ]}.

Definition foo : BinaryDownloader := __init__ "foo" "1.0".

End Hosts.

(** ** Observations of the host used in the statements *)

(** The part of the host that the program only reads. *)
Definition outside (w : World) :=
  (environ w, umask w, urlopen w, tempname w,
   mkdir_denied w, rename_denied w, chmod_denied w, popen w).

(** [respects R m]: every run of [m] takes a host to one related by [R],
    whether it returns or raises. *)
Definition respects {A} (R : relation World) (m : M A) : Prop :=
  forall w r w', m w = (r, w') -> R w w'.

(** [keeps f]: the observation [f] of the host is the same afterwards. *)
Definition keeps {X} (f : World -> X) : relation World :=
  fun w w' => f w' = f w.

(** The warning that [fix_file_permissions] logs. *)
Definition chmod_warning (target_path strerror : string) : LogRecord :=
  mkLog WARNING "Failed to set chmod 755 for %s: %s"
        [ArgStr target_path; ArgExn (OSError strerror target_path)].


(** The record that [download_binary] logs when the file is already there. *)
Definition found_record (self : BinaryDownloader) (target_path : string) : LogRecord :=
  mkLog INFO "Already found %s at %s"
        [ArgStr (binary_name self); ArgStr target_path].


(** ** [argparse]: registering options

    A parser is the list of the actions registered so far, oldest first.
    [add_long_option name help] below is
    [ArgumentParser.add_argument("--" + name, help=help)], the form in which
    [add_arguments] calls it: the destination is inferred from the option
    string ([--foo-bar] gives [foo_bar]), and an option string that is
    already registered is an [ArgumentError] (the parser's conflict handler
    is the default one). *)

Record Action : Type := mkAction {
  option_string : string;
  dest : string;
  help : string
}.

(** What [add_arguments] can raise: a built-in exception, or
    [argparse.ArgumentError(action, message)]. *)
Inductive parser_exn : Type :=
| Builtin (e : exn)
| ArgumentError (argument_name message : string).

Definition dash : ascii := "-"%char.

(** [s.lstrip("-")] *)
Fixpoint lstrip_dash (s : string) : string :=
  match s with
  | EmptyString => EmptyString
  | String c r => if Ascii.eqb c dash then lstrip_dash r else s
  end.

(** [s.replace("-", "_")] *)
Fixpoint replace_dash (s : string) : string :=
  match s with
  | EmptyString => EmptyString
  | String c r => String (if Ascii.eqb c dash then "_"%char else c) (replace_dash r)
  end.

(** ["-" in s] *)
Fixpoint has_dash (s : string) : bool :=
  match s with
  | EmptyString => false
  | String c r => Ascii.eqb c dash || has_dash r
  end.

(** [option_string in parser._option_string_actions] *)
Definition registered (opt : string) (parser : list Action) : bool :=
  existsb (fun a => String.eqb (option_string a) opt) parser.

Definition add_long_option (name help : string) (parser : list Action)
    : parser_exn + list Action :=
  let opt := "--" +:+ name in
  if Path.is_empty (lstrip_dash opt) then
    inl (Builtin (ValueError ("dest= is required for options like '" +:+ opt +:+ "'")))
  else if registered opt parser then
    inl (ArgumentError opt ("conflicting option string: " +:+ opt))
  else inr (parser ++ [mkAction opt (replace_dash (lstrip_dash opt)) help]).

(** The two option strings and help texts of [add_arguments]. *)
Definition path_option (self : BinaryDownloader) : string :=
  "--override-" +:+ binary_name self +:+ "-path".

Definition url_option (self : BinaryDownloader) : string :=
  "--override-" +:+ binary_name self +:+ "-url".

(** The attribute names that [handle_arguments] reads. *)
Definition path_attribute (self : BinaryDownloader) : string :=
  "override_" +:+ binary_name self +:+ "_path".

Definition url_attribute (self : BinaryDownloader) : string :=
  "override_" +:+ binary_name self +:+ "_url".

Definition path_help (self : BinaryDownloader) : string :=
  "Specify a path to a specific version of " +:+ binary_name self +:+ " to use. " +:+
  "If this is provided then " +:+ binary_name self +:+ " will not be downloaded but " +:+
  "instead the local copy will be used directly.".

Definition url_help (self : BinaryDownloader) (target_download_path : string) : string :=
  "Specify a URL to use when downloading " +:+ binary_name self +:+ ". " +:+
  "If this is provided then if no copy of " +:+ binary_name self +:+ " exists " +:+
  "at " +:+ target_download_path +:+ " then a copy will be downloaded from this " +:+
  "URL. If the URL provided contains a version of " +:+ binary_name self +:+ " " +:+
  "other than " +:+ version self +:+ ", it may be confusing since " +:+ version self +:+ " " +:+
  "is part of the path '" +:+ target_download_path +:+ "'.".

(** The two actions that a successful [add_arguments] appends. *)
Definition path_action (self : BinaryDownloader) : Action :=
  mkAction (path_option self)
           ("override_" +:+ replace_dash (binary_name self) +:+ "_path")
           (path_help self).

Definition url_action (self : BinaryDownloader) (target_download_path : string)
    : Action :=
  mkAction (url_option self)
           ("override_" +:+ replace_dash (binary_name self) +:+ "_url")
           (url_help self target_download_path).

(** [self._add_arguments_called = True] *)
Definition mark_add_arguments_called (self : BinaryDownloader) : BinaryDownloader :=
  {| _add_arguments_called := true;
     _handle_arguments_called := _handle_arguments_called self;
     binary_name := binary_name self;
     override_path := override_path self;
     override_url := override_url self;
     version := version self |}.

(** How a call of [add_arguments] ends: what it raised, if anything, and
    the instance, the parser and the host as the call left them.  The
    instance and the parser are changed in place, so what was done before an
    exception stays done. *)
Record AddOutcome : Type := mkAddOutcome {
  add_raised : option parser_exn;
  add_self : BinaryDownloader;
  add_parser : list Action;
  add_world : World
}.

(** Add the commandline arguments this library cares about. *)
Definition add_arguments (self : BinaryDownloader) (parser : list Action)
    (w : World) : AddOutcome :=
  let self := mark_add_arguments_called self in
  match add_long_option ("override-" +:+ binary_name self +:+ "-path")
                        (path_help self) parser with
  | inl e => mkAddOutcome (Some e) self parser w
  | inr parser1 =>
      match cached_binary_path self w with
      | (Err e, w1) => mkAddOutcome (Some (Builtin e)) self parser1 w1
      | (Ok target_download_path, w1) =>
          match add_long_option ("override-" +:+ binary_name self +:+ "-url")
                                (url_help self target_download_path) parser1 with
          | inl e => mkAddOutcome (Some e) self parser1 w1
          | inr parser2 => mkAddOutcome None self parser2 w1
          end
      end
  end.

(** ** Further observations used in the statements *)

(** The host with its log records forgotten. *)
Definition forget_records (w : World) : World := set_records [] w.

(** Two hosts that differ in their log records at most. *)
Definition same_but_records (w1 w2 : World) : Prop :=
  forget_records w1 = forget_records w2.

(** [log_blind m]: run on two hosts that differ in their log records at
    most, [m] gives the same result and leaves two such hosts. *)
Definition log_blind {A} (m : M A) : Prop :=
  forall w1 w2, same_but_records w1 w2 ->
    fst (m w1) = fst (m w2) /\ same_but_records (snd (m w1)) (snd (m w2)).

(** The warning of [run_binary] about missing set-up. *)
Definition setup_warning : LogRecord :=
  mkLog WARNING
    ("Looks like you haven't called BinaryDownloader.add_arguments() and " +:+
     "BinaryDownloader.handle_arguments(). This means your users can't " +:+
     "customize the binary downloader behavior.") [].

(** The last character of a string. *)
Fixpoint last_char (s : string) : option ascii :=
  match s with
  | EmptyString => None
  | String c EmptyString => Some c
  | String _ r => last_char r
  end.




(** * Properties *)

(** ** Strings *)

Lemma app_cons c (a b : string) : String c a +:+ b = String c (a +:+ b).
Proof. reflexivity. Qed.

Lemma app_empty (b : string) : EmptyString +:+ b = b.
Proof. reflexivity. Qed.

Lemma is_empty_app a b :
  Path.is_empty (a +:+ b) = Path.is_empty a && Path.is_empty b.
Proof. destruct a; [ rewrite app_empty | rewrite app_cons ]; reflexivity. Qed.

Lemma endswith_sep_app a b :
  Path.is_empty b = false ->
  Path.endswith_sep (a +:+ b) = Path.endswith_sep b.
Proof.
  intros Hb. induction a as [|c a IH].
  - reflexivity.
  - rewrite app_cons. cbn [Path.endswith_sep].
    destruct (a +:+ b) eqn:E.
    + pose proof (is_empty_app a b) as He. rewrite E, Hb in He.
      cbn in He. rewrite andb_false_r in He. discriminate.
    + exact IH.
Qed.

Lemma joinable_app a b : joinable b = true -> joinable (a +:+ b) = true.
Proof.
  unfold joinable. intros [Hb1 Hb2]%andb_prop.
  apply negb_true_iff in Hb1.
  rewrite is_empty_app, endswith_sep_app, Hb1, andb_false_r by exact Hb1.
  exact Hb2.
Qed.

(** [os.path.join] puts exactly one slash between a joinable path and a
    relative component. *)
Lemma join2_slash a b :
  joinable a = true -> Path.startswith_sep b = false ->
  Path.join2 a b = a +:+ "/" +:+ b.
Proof.
  unfold joinable, Path.join2. intros [Ha1 Ha2]%andb_prop Hb.
  apply negb_true_iff in Ha1, Ha2. rewrite Hb, Ha1, Ha2. reflexivity.
Qed.

Lemma joinable_slash a b : joinable b = true -> joinable (a +:+ "/" +:+ b) = true.
Proof. intros Hb. apply joinable_app. apply (joinable_app "/"). exact Hb. Qed.

Lemma app_assoc_s (a b c : string) : (a +:+ b) +:+ c = a +:+ b +:+ c.
Proof. induction a as [|x a IH]; [reflexivity|]. rewrite !app_cons, IH. reflexivity. Qed.

(** ** Cache path resolution *)

(** What [cached_binary_path] computes, in one equation: an error exactly
    when HOME is missing, and no effect on the host. *)
Lemma cached_binary_path_eq self w :
  cached_binary_path self w =
    (match environ w !! "HOME" with
     | None => Err (KeyError "HOME")
     | Some home =>
         Ok (Path.join
               (Path.join (default (Path.join home [".cache"])
                                   (environ w !! "XDG_CACHE_HOME"))
                          [binary_name self])
               [version self; binary_name self])
     end, w).
Proof.
  unfold cached_binary_path, cached_binary_root, bind, os_environ_getitem,
    os_environ_get, ret.
  destruct (environ w !! "HOME"); reflexivity.
Qed.

Lemma cached_binary_root_eq self w :
  cached_binary_root self w =
    (match environ w !! "HOME" with
     | None => Err (KeyError "HOME")
     | Some home =>
         Ok (Path.join (default (Path.join home [".cache"])
                                (environ w !! "XDG_CACHE_HOME"))
                       [binary_name self])
     end, w).
Proof.
  unfold cached_binary_root, bind, os_environ_getitem, os_environ_get, ret.
  destruct (environ w !! "HOME"); reflexivity.
Qed.

(** C1 (as the code behaves).  With XDG_CACHE_HOME set to /tmp/c and HOME
    absent, [cached_binary_root] and [cached_binary_path] raise
    [KeyError "HOME"]: the default of [os.environ.get] is evaluated before
    the lookup, so a set XDG_CACHE_HOME does not make the computation
    succeed. *)
Theorem cached_binary_path_XDG_without_HOME :
  let w := Hosts.host Hosts.env_xdg_only ∅ Hosts.serve_all 0 in
  environ w !! "XDG_CACHE_HOME" = Some "/tmp/c" /\
  environ w !! "HOME" = None /\
  cached_binary_root Hosts.foo w = (Err (KeyError "HOME"), w) /\
  cached_binary_path Hosts.foo w = (Err (KeyError "HOME"), w).
Proof.
  cbv zeta. rewrite cached_binary_root_eq, cached_binary_path_eq.
  repeat split; vm_compute; reflexivity.
Qed.

(** The path is the slash-separated layout whenever every joined component
    is a plain segment. *)
Lemma join_layout root name ver :
  joinable root = true -> segment name = true -> segment ver = true ->
  Path.join (Path.join root [name]) [ver; name] = spec_cache_path root name ver.
Proof.
  unfold segment. intros Hr [Hn1 Hn2]%andb_prop [Hv1 Hv2]%andb_prop.
  apply negb_true_iff in Hn1, Hv1.
  unfold Path.join, spec_cache_path. cbn [fold_left].
  rewrite (join2_slash root name) by assumption.
  rewrite (join2_slash _ ver) by (try apply joinable_slash; assumption).
  rewrite join2_slash; [| | assumption].
  - rewrite !app_assoc_s. reflexivity.
  - rewrite app_assoc_s. apply joinable_app, joinable_slash. exact Hv2.
Qed.

(** C2 (as stated) fails: with XDG_CACHE_HOME=/tmp/c/ the cache root
    resolves, yet the path returned for foo 1.0 is /tmp/c/foo/1.0/foo and not
    the string <cache_root>/foo/1.0/foo, which has two slashes after c. *)
Lemma cached_binary_path_trailing_slash :
  ~ (forall self w root p,
       spec_cache_root (environ w) = Some root ->
       cached_binary_path self w = (Ok p, w) ->
       p = spec_cache_path root (binary_name self) (version self)).
Proof.
  intros H.
  specialize (H Hosts.foo (Hosts.host Hosts.env_xdg_slash ∅ Hosts.serve_all 0)
                "/tmp/c/" "/tmp/c/foo/1.0/foo").
  assert (Hp : "/tmp/c/foo/1.0/foo"
               = spec_cache_path "/tmp/c/" (binary_name Hosts.foo) (version Hosts.foo)).
  { apply H.
    - vm_compute. reflexivity.
    - rewrite cached_binary_path_eq. vm_compute. reflexivity. }
  vm_compute in Hp. discriminate Hp.
Qed.

(** C2 (amended).  When HOME is set (so that the cache root resolves), the
    variable the cache root is read from holds a non-empty value that does
    not end in a slash, and [binary_name] and [version] are non-empty and
    neither start nor end with a slash, [cached_binary_path] returns
    <cache_root>/<binary_name>/<version>/<binary_name>, where cache_root is
    the value of XDG_CACHE_HOME if set and otherwise <HOME>/.cache. *)
Theorem cached_binary_path_layout self w home :
  environ w !! "HOME" = Some home ->
  joinable (default home (environ w !! "XDG_CACHE_HOME")) = true ->
  segment (binary_name self) = true ->
  segment (version self) = true ->
  exists root,
    spec_cache_root (environ w) = Some root /\
    cached_binary_path self w =
      (Ok (spec_cache_path root (binary_name self) (version self)), w).
Proof.
  intros Hhome Hroot Hn Hv.
  rewrite cached_binary_path_eq, Hhome. unfold spec_cache_root.
  rewrite Hhome.
  destruct (environ w !! "XDG_CACHE_HOME") as [x|];
    cbn [from_option id fmap option_fmap option_map] in Hroot |- *.
  - exists x. split; [reflexivity|]. rewrite join_layout by assumption.
    reflexivity.
  - exists (home +:+ "/.cache"). split; [reflexivity|].
    assert (Hj : Path.join home [".cache"] = home +:+ "/.cache").
    { unfold Path.join. cbn [fold_left]. apply join2_slash; [assumption|reflexivity]. }
    rewrite Hj, join_layout; [reflexivity| |assumption|assumption].
    apply joinable_app. reflexivity.
Qed.

Lemma cached_binary_path_layout_witness :
  cached_binary_path Hosts.foo (Hosts.host Hosts.env_xdg ∅ Hosts.serve_all 0) =
    (Ok "/tmp/c/foo/1.0/foo", Hosts.host Hosts.env_xdg ∅ Hosts.serve_all 0).
Proof.
  assert (H1 : environ (Hosts.host Hosts.env_xdg ∅ Hosts.serve_all 0) !! "HOME"
               = Some "/home/u") by (vm_compute; reflexivity).
  assert (H2 : joinable (default "/home/u"
                 (environ (Hosts.host Hosts.env_xdg ∅ Hosts.serve_all 0)
                    !! "XDG_CACHE_HOME")) = true) by (vm_compute; reflexivity).
  assert (H3 : segment (binary_name Hosts.foo) = true) by reflexivity.
  assert (H4 : segment (version Hosts.foo) = true) by reflexivity.
  destruct (cached_binary_path_layout Hosts.foo _ _ H1 H2 H3 H4)
    as [root [Hroot Hpath]].
  vm_compute in Hroot. injection Hroot as <-. exact Hpath.
Defined.

(** C9.  [cached_binary_path] leaves the host as it found it, so a second
    call gives the same result as the first; and its result depends on
    nothing but [binary_name], [version] and the environment mapping. *)
Theorem cached_binary_path_deterministic self1 self2 w1 w2 :
  binary_name self1 = binary_name self2 ->
  version self1 = version self2 ->
  environ w1 = environ w2 ->
  snd (cached_binary_path self1 w1) = w1 /\
  cached_binary_path self1 (snd (cached_binary_path self1 w1))
    = cached_binary_path self1 w1 /\
  fst (cached_binary_path self1 w1) = fst (cached_binary_path self2 w2).
Proof.
  intros Hn Hv He. rewrite !cached_binary_path_eq. cbn [fst snd].
  rewrite ?cached_binary_path_eq, Hn, Hv, He. auto.
Qed.

Lemma cached_binary_path_deterministic_witness :
  fst (cached_binary_path Hosts.foo (Hosts.host Hosts.env_home ∅ Hosts.serve_all 0))
  = fst (cached_binary_path
           (with_override_url (Some "https://example.com/foo") Hosts.foo)
           (Hosts.host Hosts.env_home {[ "/home/u/.cache/foo/1.0/foo" := File 493 "x" ]}
                       Hosts.serve_none 1)).
Proof.
  apply (cached_binary_path_deterministic
           Hosts.foo (with_override_url (Some "https://example.com/foo") Hosts.foo)
           (Hosts.host Hosts.env_home ∅ Hosts.serve_all 0)
           (Hosts.host Hosts.env_home {[ "/home/u/.cache/foo/1.0/foo" := File 493 "x" ]}
                       Hosts.serve_none 1));
    reflexivity.
Defined.

(** ** What the primitives leave alone *)

Lemma outside_environ w w' : outside w' = outside w -> environ w' = environ w.
Proof. unfold outside. intros H. injection H. auto. Qed.

Lemma outside_chmod_denied w w' :
  outside w' = outside w -> chmod_denied w' = chmod_denied w.
Proof. unfold outside. intros H. injection H. auto. Qed.

(** One step of a sequence: the first command either returns, and the rest
    runs in the state it left, or raises, and the rest is skipped. *)
Lemma bind_Ok {A B} (m : M A) (k : A -> M B) w a w' :
  m w = (Ok a, w') -> bind m k w = k a w'.
Proof. unfold bind. intros ->. reflexivity. Qed.

Lemma bind_Err {A B} (m : M A) (k : A -> M B) w e w' :
  m w = (Err e, w') -> bind m k w = (Err e, w').
Proof. unfold bind. intros ->. reflexivity. Qed.

Lemma bind_inv_Ok {A B} (m : M A) (k : A -> M B) w b w2 :
  bind m k w = (Ok b, w2) ->
  exists a w1, m w = (Ok a, w1) /\ k a w1 = (Ok b, w2).
Proof.
  unfold bind. destruct (m w) as [[a|e] w1]; [eauto|discriminate].
Qed.

Section Respects.
Context (R : relation World) `{!Reflexive R, !Transitive R}.

Lemma respects_ret {A} (a : A) : respects R (ret a).
Proof. intros w r w' [= <- <-]. reflexivity. Qed.

Lemma respects_raise {A} e : respects R (@raise A e).
Proof. intros w r w' [= <- <-]. reflexivity. Qed.

Lemma respects_lift {A} (x : Result A) : respects R (lift x).
Proof. intros w r w' [= <- <-]. reflexivity. Qed.

Lemma respects_bind {A B} (m : M A) (k : A -> M B) :
  respects R m -> (forall a, respects R (k a)) -> respects R (bind m k).
Proof.
  intros Hm Hk w r w'. unfold bind.
  destruct (m w) as [[a|e] w1] eqn:E.
  - intros H. etrans; [exact (Hm _ _ _ E)|exact (Hk _ _ _ _ H)].
  - intros [= <- <-]. exact (Hm _ _ _ E).
Qed.

Lemma respects_if_truthy {A} o (t : string -> M A) (e : M A) :
  (forall s, respects R (t s)) -> respects R e -> respects R (if_truthy o t e).
Proof. intros Ht He. unfold if_truthy. destruct o as [[|c s]|]; cbn; auto. Qed.
End Respects.

Global Instance keeps_refl {X} (f : World -> X) : Reflexive (keeps f).
Proof. intros w. reflexivity. Qed.

Global Instance keeps_trans {X} (f : World -> X) : Transitive (keeps f).
Proof. intros w1 w2 w3 H1 H2. unfold keeps in *. congruence. Qed.

Lemma LOGGER_log_outside l m a w r w' :
  LOGGER_log l m a w = (r, w') ->
  outside w' = outside w /\ fs w' = fs w /\ fetched w' = fetched w
  /\ spawned w' = spawned w.
Proof. unfold LOGGER_log. intros [= <- <-]. auto. Qed.

Lemma urlretrieve_inv url w r w' :
  urlretrieve url w = (r, w') ->
  outside w' = outside w /\ fetched w' = fetched w ++ [url]
  /\ spawned w' = spawned w.
Proof.
  unfold urlretrieve. destruct (urlopen w url); intros [= <- <-]; auto.
Qed.

Lemma has_nul_or a b : Path.has_nul a || Path.has_nul b = false ->
  Path.has_nul a = false /\ Path.has_nul b = false.
Proof. apply orb_false_elim. Qed.

Lemma mkdir_all_outside ps under_file w r w' :
  mkdir_all under_file ps w = (r, w') ->
  outside w' = outside w /\ fetched w' = fetched w /\ spawned w' = spawned w.
Proof.
  revert under_file w. induction ps as [|p ps IH]; intros under_file w;
    cbn [mkdir_all].
  - intros [= <- <-]. auto.
  - destruct (Path.has_nul p); [intros [= <- <-]; auto|].
    destruct under_file; [intros [= <- <-]; auto|].
    destruct (fs w !! p) as [[m body|m]|].
    + destruct ps as [|q ps']; [intros [= <- <-]; auto|apply IH].
    + apply IH.
    + destruct (mkdir_denied w p); [intros [= <- <-]; auto|].
      intros H. apply IH in H as (H1 & H2 & H3). auto.
Qed.

Lemma os_makedirs_outside name w r w' :
  os_makedirs name w = (r, w') ->
  outside w' = outside w /\ fetched w' = fetched w /\ spawned w' = spawned w.
Proof.
  unfold os_makedirs. destruct (Path.is_empty name).
  - intros [= <- <-]. auto.
  - apply mkdir_all_outside.
Qed.

(** A move or a [chmod] that did not raise [ValueError] was given paths
    without NUL. *)
Lemma shutil_move_Ok_nul src dst w w' :
  shutil_move src dst w = (Ok tt, w') ->
  Path.has_nul src = false /\ Path.has_nul dst = false.
Proof.
  unfold shutil_move.
  destruct (Path.has_nul src || Path.has_nul dst) eqn:E; [discriminate|].
  intros _. apply has_nul_or, E.
Qed.

Lemma shutil_move_outside src dst w r w' :
  shutil_move src dst w = (r, w') ->
  outside w' = outside w /\ fetched w' = fetched w /\ spawned w' = spawned w.
Proof.
  unfold shutil_move.
  destruct (Path.has_nul src || Path.has_nul dst); [intros [= <- <-]; auto|].
  destruct (fs w !! src) as [[m body|m]|]; try (intros [= <- <-]; auto).
  destruct (is_dir (fs w !! dst) && _); [intros [= <- <-]; auto|].
  destruct (rename_denied w src _); intros [= <- <-]; auto.
Qed.

(** After a move that succeeded there is something at the destination. *)
Lemma shutil_move_exists src dst w w' :
  shutil_move src dst w = (Ok tt, w') -> is_Some (fs w' !! dst).
Proof.
  unfold shutil_move.
  destruct (Path.has_nul src || Path.has_nul dst); [discriminate|].
  destruct (fs w !! src) as [[m body|m]|] eqn:Hsrc; try discriminate.
  destruct (is_dir (fs w !! dst)) eqn:Hd; cbn [andb].
  - destruct (bool_decide _); [discriminate|].
    destruct (rename_denied w src _); [discriminate|].
    intros [= <-]. cbn [fs set_fs].
    destruct (fs w !! dst) as [[|md]|] eqn:Hdst; try discriminate.
    assert (src <> dst) by congruence.
    destruct (decide (Path.join2 dst (Path.basename (Path.rstrip_sep src)) = dst))
      as [->|Hne].
    + rewrite lookup_insert_eq. eauto.
    + rewrite lookup_insert_ne, lookup_delete_ne, Hdst by done. eauto.
  - destruct (rename_denied w src dst); [discriminate|].
    intros [= <-]. cbn [fs set_fs]. rewrite lookup_insert_eq. eauto.
Qed.

(** The mode that [fix_file_permissions] asks for is 0755. *)
Lemma mode_0755 :
  Z.lor stat.S_IRUSR (Z.lor stat.S_IWUSR (Z.lor stat.S_IXUSR
    (Z.lor stat.S_IRGRP (Z.lor stat.S_IXGRP
    (Z.lor stat.S_IROTH stat.S_IXOTH))))) = 493.
Proof. reflexivity. Qed.

(** [fix_file_permissions] on a path without NUL never raises: either the
    entry gets mode 0755, or a warning is logged and the file system is left
    as it was. *)
Lemma fix_file_permissions_eq p w :
  Path.has_nul p = false ->
  fix_file_permissions p w =
    (Ok tt,
     match fs w !! p with
     | None =>
         set_records (records w ++ [chmod_warning p "No such file or directory"]) w
     | Some n =>
         if chmod_denied w p
         then set_records (records w ++ [chmod_warning p "Operation not permitted"]) w
         else set_fs (<[p := match n with
                             | File _ body => File 493 body
                             | Dir _ => Dir 493
                             end]> (fs w)) w
     end).
Proof.
  intros Hnul.
  unfold fix_file_permissions, except_OSError, os_chmod. rewrite mode_0755, Hnul.
  destruct (fs w !! p) as [n|]; [destruct (chmod_denied w p)|]; reflexivity.
Qed.

(** With a NUL in the path, the [ValueError] of [os.chmod] is not caught. *)
Lemma fix_file_permissions_nul p w :
  Path.has_nul p = true ->
  fix_file_permissions p w = (Err (ValueError "embedded null byte"), w).
Proof.
  intros Hnul. unfold fix_file_permissions, except_OSError, os_chmod.
  rewrite Hnul. reflexivity.
Qed.

Lemma fix_file_permissions_outside p w r w' :
  fix_file_permissions p w = (r, w') ->
  outside w' = outside w /\ fetched w' = fetched w /\ spawned w' = spawned w
  /\ (is_Some (fs w !! p) -> is_Some (fs w' !! p)).
Proof.
  destruct (Path.has_nul p) eqn:Hnul.
  { rewrite (fix_file_permissions_nul _ _ Hnul). intros [= <- <-]. auto. }
  rewrite (fix_file_permissions_eq _ _ Hnul). intros [= <- <-].
  destruct (fs w !! p) as [n|] eqn:E; [destruct (chmod_denied w p)|];
    repeat split; cbn [fs set_fs set_records]; rewrite ?E; eauto.
  intros _. rewrite lookup_insert_eq. eauto.
Qed.

(** ** Remote URL resolution *)

Lemma app_empty_r (a : string) : a +:+ EmptyString = a.
Proof. induction a as [|c a IH]; [reflexivity|]. rewrite app_cons, IH. reflexivity. Qed.

Lemma format_REMOTE_URL name ver :
  str_format REMOTE_URL [("binary_name", name); ("version", ver)]
  = Ok (spec_default_url name ver).
Proof.
  unfold str_format.
  let ps := eval vm_compute in (parse_format REMOTE_URL None) in
  change (parse_format REMOTE_URL None) with ps.
  cbn. rewrite app_empty_r. reflexivity.
Qed.

Lemma remote_binary_url_eq self w :
  remote_binary_url self w =
    (Ok (if_truthy (override_url self) id
           (spec_default_url (binary_name self) (version self))), w).
Proof.
  unfold remote_binary_url, if_truthy. rewrite format_REMOTE_URL.
  destruct (override_url self) as [[|c u]|]; reflexivity.
Qed.

(** C8 (as stated) fails: an instance whose [override_url] is set to the
    empty string gets the default URL, not its [override_url]. *)
Lemma remote_binary_url_empty_override :
  ~ (forall self u w,
       override_url self = Some u -> remote_binary_url self w = (Ok u, w)).
Proof.
  intros H.
  specialize (H (with_override_url (Some "") Hosts.foo) ""
                (Hosts.host Hosts.env_home ∅ Hosts.serve_all 0) eq_refl).
  rewrite remote_binary_url_eq in H. vm_compute in H. discriminate H.
Qed.

(** C8 (amended).  [remote_binary_url] returns [override_url] when it is set
    to a non-empty string, and when it is not set it returns the default
    template with the instance's [binary_name] and [version] substituted. *)
Theorem remote_binary_url_resolution self w :
  (forall u, override_url self = Some u -> u <> "" ->
             remote_binary_url self w = (Ok u, w)) /\
  (override_url self = None ->
   remote_binary_url self w =
     (Ok (spec_default_url (binary_name self) (version self)), w)).
Proof.
  rewrite remote_binary_url_eq. split.
  - intros u -> Hu. destruct u; [contradiction|reflexivity].
  - intros ->. reflexivity.
Qed.

Lemma remote_binary_url_resolution_witness :
  remote_binary_url (with_override_url (Some "https://example.com/foo") Hosts.foo)
                    (Hosts.host Hosts.env_xdg ∅ Hosts.serve_all 0)
    = (Ok "https://example.com/foo", Hosts.host Hosts.env_xdg ∅ Hosts.serve_all 0)
  /\ remote_binary_url Hosts.foo (Hosts.host Hosts.env_xdg ∅ Hosts.serve_all 0)
    = (Ok "https://storage.googleapis.com/pre-commit-assets/foo/1.0/bin/foo",
       Hosts.host Hosts.env_xdg ∅ Hosts.serve_all 0).
Proof.
  split.
  - apply (proj1 (remote_binary_url_resolution
                    (with_override_url (Some "https://example.com/foo") Hosts.foo)
                    (Hosts.host Hosts.env_xdg ∅ Hosts.serve_all 0)));
      [reflexivity|discriminate].
  - apply (proj2 (remote_binary_url_resolution Hosts.foo
                    (Hosts.host Hosts.env_xdg ∅ Hosts.serve_all 0))).
    reflexivity.
Defined.

(** ** Download *)

(** The fast path: the file is there, one INFO record is written, and that
    is all that happens. *)
Lemma download_binary_found self w p :
  cached_binary_path self w = (Ok p, w) ->
  is_Some (fs w !! p) ->
  download_binary self w =
    (Ok p, set_records (records w ++ [found_record self p]) w).
Proof.
  intros Hp Hex. unfold download_binary.
  rewrite (bind_Ok _ _ _ _ _ Hp). unfold bind at 1, os_path_exists.
  rewrite bool_decide_eq_true_2 by exact Hex. reflexivity.
Qed.

(** The slow path, as the sequence of its steps. *)
Lemma download_binary_missing self w p :
  cached_binary_path self w = (Ok p, w) ->
  fs w !! p = None ->
  download_binary self w =
    (remote_url <- remote_binary_url self ;;
     local_filename <- urlretrieve remote_url ;;
     os_makedirs (Path.dirname p) ;;;
     shutil_move local_filename p ;;;
     fix_file_permissions p ;;;
     LOGGER_info "Downloaded %s from %s to %s and then moved to %s"
                 [ArgStr (binary_name self); ArgStr remote_url;
                  ArgStr local_filename; ArgStr p] ;;;
     ret p)%py w.
Proof.
  intros Hp Hex. unfold download_binary.
  rewrite (bind_Ok _ _ _ _ _ Hp). unfold bind at 1, os_path_exists.
  rewrite bool_decide_eq_false_2; [reflexivity|].
  rewrite Hex. intros [? ?]. discriminate.
Qed.

Lemma cached_binary_path_state self w r w' :
  cached_binary_path self w = (r, w') -> w' = w.
Proof. rewrite cached_binary_path_eq. intros [= _ <-]. reflexivity. Qed.

Lemma cached_binary_path_environ self w w' :
  environ w' = environ w ->
  fst (cached_binary_path self w') = fst (cached_binary_path self w).
Proof. intros H. rewrite !cached_binary_path_eq. cbn [fst]. rewrite H. reflexivity. Qed.

(** A download that returns: where the path comes from, what is on disk
    afterwards, and how many requests were made. *)
Lemma download_binary_inv self w p w1 :
  download_binary self w = (Ok p, w1) ->
  cached_binary_path self w = (Ok p, w)
  /\ outside w1 = outside w
  /\ is_Some (fs w1 !! p)
  /\ (is_Some (fs w !! p) -> fetched w1 = fetched w /\ fs w1 = fs w)
  /\ (fs w !! p = None ->
      exists url, remote_binary_url self w = (Ok url, w)
                  /\ fetched w1 = fetched w ++ [url]).
Proof.
  intros H.
  destruct (cached_binary_path self w) as [[p0|e] w0] eqn:Hp.
  2:{ unfold download_binary in H. rewrite (bind_Err _ _ _ _ _ Hp) in H.
      discriminate. }
  pose proof (cached_binary_path_state _ _ _ _ Hp) as ->.
  destruct (fs w !! p0) as [n|] eqn:Hex.
  - rewrite (download_binary_found _ _ _ Hp) in H by eauto.
    injection H as <- <-. cbn [fs fetched set_records]. rewrite Hex.
    refine (conj eq_refl (conj eq_refl (conj _ (conj _ _)))); eauto.
    discriminate.
  - rewrite (download_binary_missing _ _ _ Hp Hex) in H.
    apply bind_inv_Ok in H as (url & wa & Hurl & H).
    rewrite remote_binary_url_eq in Hurl. injection Hurl as Hurl <-.
    apply bind_inv_Ok in H as (tmp & wb & Hget & H).
    apply bind_inv_Ok in H as ([] & wc & Hmk & H).
    apply bind_inv_Ok in H as ([] & wd & Hmv & H).
    apply bind_inv_Ok in H as ([] & we & Hfix & H).
    apply bind_inv_Ok in H as ([] & wf & Hlog & H).
    injection H as <- <-.
    apply urlretrieve_inv in Hget as (G1 & G2 & _).
    apply os_makedirs_outside in Hmk as (K1 & K2 & _).
    pose proof (shutil_move_exists _ _ _ _ Hmv) as Hthere.
    apply shutil_move_outside in Hmv as (V1 & V2 & _).
    apply fix_file_permissions_outside in Hfix as (F1 & F2 & _ & F4).
    apply LOGGER_log_outside in Hlog as (L1 & L2 & L3 & _).
    refine (conj eq_refl (conj _ (conj _ (conj _ _)))).
    + congruence.
    + rewrite L2. auto.
    + intros [? ?]. congruence.
    + intros _. exists url. split.
      * rewrite remote_binary_url_eq, Hurl. reflexivity.
      * congruence.
Qed.

(** C3.  When something already exists at the cache path, [download_binary]
    returns that path and does nothing but write one INFO record, whatever
    [override_url] is: no request is made and the file system is untouched.
    Hence a call that returned is followed by a call that returns the same
    path and makes no request, and the two together make at most one. *)
Theorem download_binary_idempotent self w :
  (forall p,
     cached_binary_path self w = (Ok p, w) ->
     is_Some (fs w !! p) ->
     download_binary self w =
       (Ok p, set_records (records w ++ [found_record self p]) w)) /\
  (forall p w1,
     download_binary self w = (Ok p, w1) ->
     exists w2,
       download_binary self w1 = (Ok p, w2)
       /\ fetched w2 = fetched w1
       /\ fs w2 = fs w1
       /\ (length (fetched w1) <= S (length (fetched w)))%nat).
Proof.
  split; [apply download_binary_found|].
  intros p w1 H.
  apply download_binary_inv in H as (Hp & Hout & Hthere & Hfast & Hslow).
  assert (Hp1 : cached_binary_path self w1 = (Ok p, w1)).
  { pose proof (cached_binary_path_environ self w w1 (outside_environ _ _ Hout)) as E.
    destruct (cached_binary_path self w1) as [r w'] eqn:E1.
    pose proof (cached_binary_path_state _ _ _ _ E1) as ->.
    rewrite Hp in E. cbn [fst] in E. congruence. }
  eexists. split; [exact (download_binary_found _ _ _ Hp1 Hthere)|].
  cbn [fetched fs set_records]. repeat split.
  destruct (fs w !! p) eqn:Hex.
  - destruct Hfast as [-> _]; eauto.
  - destruct (Hslow eq_refl) as (url & _ & ->). rewrite length_app. cbn. lia.
Qed.

Lemma download_binary_idempotent_witness :
  let w := Hosts.host Hosts.env_xdg ∅ Hosts.serve_all 0 in
  let w1 := snd (download_binary Hosts.foo w) in
  exists w2,
    download_binary Hosts.foo w1 = (Ok "/tmp/c/foo/1.0/foo", w2)
    /\ fetched w2 = fetched w1
    /\ fs w2 = fs w1
    /\ (length (fetched w1) <= 1)%nat.
Proof.
  intros w w1.
  assert (H : download_binary Hosts.foo w = (Ok "/tmp/c/foo/1.0/foo", w1))
    by (vm_compute; reflexivity).
  exact (proj2 (download_binary_idempotent Hosts.foo w) _ _ H).
Defined.

(** C7.  On the download path, once the body has been fetched and moved to
    the cache path, [download_binary] returns the cache path in either case:
    when [chmod] goes through, the entry at the cache path has mode 0755
    (493); when [chmod] is refused, a WARNING record is logged, the file
    system stays as the move left it, and no error reaches the caller. *)
Theorem download_binary_permissions self w p url tmp w1 w2 w3 :
  cached_binary_path self w = (Ok p, w) ->
  fs w !! p = None ->
  remote_binary_url self w = (Ok url, w) ->
  urlretrieve url w = (Ok tmp, w1) ->
  os_makedirs (Path.dirname p) w1 = (Ok tt, w2) ->
  shutil_move tmp p w2 = (Ok tt, w3) ->
  exists w',
    download_binary self w = (Ok p, w')
    /\ (chmod_denied w p = false -> node_mode <$> fs w' !! p = Some 493)
    /\ (chmod_denied w p = true ->
        fs w' = fs w3
        /\ chmod_warning p "Operation not permitted" ∈ records w').
Proof.
  intros Hp Hex Hurl Hget Hmk Hmv.
  rewrite (download_binary_missing _ _ _ Hp Hex).
  rewrite (bind_Ok _ _ _ _ _ Hurl), (bind_Ok _ _ _ _ _ Hget),
    (bind_Ok _ _ _ _ _ Hmk), (bind_Ok _ _ _ _ _ Hmv).
  unfold bind at 1.
  rewrite (fix_file_permissions_eq _ _ (proj2 (shutil_move_Ok_nul _ _ _ _ Hmv))).
  destruct (shutil_move_exists _ _ _ _ Hmv) as [n Hn]. rewrite Hn.
  assert (Hden : chmod_denied w3 p = chmod_denied w p).
  { apply urlretrieve_inv in Hget as (G & _).
    apply os_makedirs_outside in Hmk as (K & _).
    apply shutil_move_outside in Hmv as (V & _).
    rewrite (outside_chmod_denied _ _ V), (outside_chmod_denied _ _ K),
      (outside_chmod_denied _ _ G). reflexivity. }
  rewrite Hden. unfold bind, LOGGER_info, LOGGER_log, ret.
  eexists. split; [reflexivity|].
  destruct (chmod_denied w p); split; try discriminate; intros _.
  - split; [reflexivity|]. cbn [records set_records].
    rewrite !elem_of_app, !list_elem_of_singleton. auto.
  - cbn [fs set_fs set_records]. rewrite lookup_insert_eq.
    destruct n; reflexivity.
Qed.

Lemma download_binary_permissions_witness :
  let w := Hosts.refuse_chmod (Hosts.host Hosts.env_xdg ∅ Hosts.serve_all 0) in
  exists w',
    download_binary Hosts.foo w = (Ok "/tmp/c/foo/1.0/foo", w')
    /\ (chmod_denied w "/tmp/c/foo/1.0/foo" = false ->
        node_mode <$> fs w' !! "/tmp/c/foo/1.0/foo" = Some 493)
    /\ (chmod_denied w "/tmp/c/foo/1.0/foo" = true ->
        fs w' = fs (snd (shutil_move "/tmp/tmp0" "/tmp/c/foo/1.0/foo"
                       (snd (os_makedirs "/tmp/c/foo/1.0"
                          (snd (urlretrieve
                             "https://storage.googleapis.com/pre-commit-assets/foo/1.0/bin/foo"
                             w))))))
        /\ chmod_warning "/tmp/c/foo/1.0/foo" "Operation not permitted" ∈ records w').
Proof.
  intros w.
  apply (download_binary_permissions Hosts.foo w "/tmp/c/foo/1.0/foo"
           "https://storage.googleapis.com/pre-commit-assets/foo/1.0/bin/foo"
           "/tmp/tmp0"
           (snd (urlretrieve
                   "https://storage.googleapis.com/pre-commit-assets/foo/1.0/bin/foo" w))
           (snd (os_makedirs "/tmp/c/foo/1.0"
                   (snd (urlretrieve
                           "https://storage.googleapis.com/pre-commit-assets/foo/1.0/bin/foo"
                           w)))));
    vm_compute; reflexivity.
Defined.

(** ** Execution *)

Lemma warn_unconfigured_ok self w :
  warn_unconfigured self w = (Ok tt, snd (warn_unconfigured self w))
  /\ outside (snd (warn_unconfigured self w)) = outside w
  /\ fs (snd (warn_unconfigured self w)) = fs w
  /\ fetched (snd (warn_unconfigured self w)) = fetched w
  /\ spawned (snd (warn_unconfigured self w)) = spawned w.
Proof.
  unfold warn_unconfigured. destruct (negb _); cbn; auto.
Qed.

(** [run_binary] is the warning followed by the rest of its body. *)
Lemma run_binary_eq self args co ch enc kw w :
  run_binary self args co ch enc kw w =
    (binary_path <- resolve_binary_path self ;;
     kwargs' <- translate_capture co kw ;;
     subprocess_run (binary_path :: args) ch enc kwargs')%py
      (snd (warn_unconfigured self w)).
Proof.
  unfold run_binary.
  rewrite (bind_Ok _ _ _ _ _ (proj1 (warn_unconfigured_ok self w))).
  reflexivity.
Qed.

(** From the command on, nothing is fetched and no file is touched; at most
    one child is started, and its command is the binary path followed by the
    arguments. *)
Lemma launch_frame bp args co ch enc kw w r w' :
  (kwargs' <- translate_capture co kw ;;
   subprocess_run (bp :: args) ch enc kwargs')%py w = (r, w') ->
  outside w' = outside w /\ fetched w' = fetched w /\ fs w' = fs w
  /\ (spawned w' = spawned w
      \/ exists kw', spawned w' = spawned w ++ [mkSpawn (bp :: args) enc kw']).
Proof.
  unfold bind, translate_capture, subprocess_run, raise, ret.
  destruct co; [destruct (_ || _)|].
  - intros [= <- <-]. auto.
  - destruct (popen w _ _); [destruct (_ && _)|]; intros [= <- <-];
      cbn; eauto 10.
  - destruct (popen w _ _); [destruct (_ && _)|]; intros [= <- <-];
      cbn; eauto 10.
Qed.

Lemma translate_capture_conflict kw w :
  is_Some (kw !! "stdout") \/ is_Some (kw !! "stderr") ->
  translate_capture true kw w =
    (Err (ValueError "Do not specify both capture_output and stdout/stderr"), w).
Proof.
  intros H. unfold translate_capture.
  destruct H as [H|H]; rewrite (bool_decide_eq_true_2 _ H);
    rewrite ?orb_true_r; reflexivity.
Qed.

Lemma resolve_binary_path_override self p w :
  override_path self = Some p -> p <> "" ->
  resolve_binary_path self w = (Ok p, w).
Proof.
  unfold resolve_binary_path, if_truthy. intros -> Hp.
  destruct p; [contradiction|reflexivity].
Qed.

Lemma resolve_binary_path_download self :
  truthy (override_path self) = false ->
  resolve_binary_path self = download_binary self.
Proof.
  unfold resolve_binary_path, if_truthy, truthy.
  destruct (override_path self) as [[|c p]|]; [reflexivity|discriminate|reflexivity].
Qed.

(** A step whose frame lemma [lem] lists what it leaves alone keeps the
    observation at hand. *)
Ltac by_frame lem :=
  let H := fresh "H" in
  intros ? ? ? H; apply lem in H; unfold keeps; tauto.

Ltac next_step := apply respects_bind; [apply _ | | ].

(** No step of [download_binary] starts a child process. *)
Lemma download_binary_no_spawn self : respects (keeps spawned) (download_binary self).
Proof.
  unfold download_binary.
  next_step.
  { intros w r w' H. apply cached_binary_path_state in H as ->. reflexivity. }
  intros target_path. next_step.
  { intros w r w' [= _ <-]. reflexivity. }
  intros [|].
  - next_step; [by_frame LOGGER_log_outside|intros _].
    apply respects_ret; apply _.
  - next_step.
    { intros w r w' H. rewrite remote_binary_url_eq in H.
      injection H as _ <-. reflexivity. }
    intros remote_url.
    next_step; [by_frame urlretrieve_inv|intros local_filename].
    next_step; [by_frame os_makedirs_outside|intros _].
    next_step; [by_frame shutil_move_outside|intros _].
    next_step; [by_frame fix_file_permissions_outside|intros _].
    next_step; [by_frame LOGGER_log_outside|intros _].
    apply respects_ret; apply _.
Qed.

Lemma resolve_binary_path_no_spawn self :
  respects (keeps spawned) (resolve_binary_path self).
Proof.
  unfold resolve_binary_path. apply respects_if_truthy.
  - intros s. apply respects_ret; apply _.
  - apply download_binary_no_spawn.
Qed.

(** C4 (as stated) fails: with [override_path] set to the empty string and
    no cached file, [run_binary] downloads: a request is made. *)
Lemma run_binary_empty_override_path_fetches :
  ~ (forall self p args co ch enc kw w,
       override_path self = Some p ->
       fetched (snd (run_binary self args co ch enc kw w)) = fetched w).
Proof.
  intros H.
  specialize (H (with_override_path (Some "") Hosts.foo) "" ["--version"]
                true true "UTF-8" ∅
                (Hosts.host Hosts.env_xdg ∅ Hosts.serve_all 0) eq_refl).
  vm_compute in H. discriminate H.
Qed.

(** C4 (amended).  With [override_path] set to a non-empty string,
    [run_binary] makes no request and leaves the file system alone, whether
    or not the cache file exists, and a child it starts is started with
    [override_path] as the binary path.  With [override_path] not set, the
    binary path is what the full [download_binary] returns. *)
Theorem run_binary_override_path self args co ch enc kw w :
  (forall p, override_path self = Some p -> p <> "" ->
     fetched (snd (run_binary self args co ch enc kw w)) = fetched w
     /\ fs (snd (run_binary self args co ch enc kw w)) = fs w
     /\ (spawned (snd (run_binary self args co ch enc kw w)) = spawned w
         \/ exists kw',
              spawned (snd (run_binary self args co ch enc kw w))
              = spawned w ++ [mkSpawn (p :: args) enc kw'])) /\
  (override_path self = None ->
     run_binary self args co ch enc kw w =
       (binary_path <- download_binary self ;;
        kwargs' <- translate_capture co kw ;;
        subprocess_run (binary_path :: args) ch enc kwargs')%py
         (snd (warn_unconfigured self w))).
Proof.
  rewrite run_binary_eq.
  destruct (warn_unconfigured_ok self w) as (_ & _ & W2 & W3 & W4).
  split.
  - intros p Hp Hne.
    rewrite (bind_Ok _ _ _ _ _ (resolve_binary_path_override _ _ _ Hp Hne)).
    destruct ((kwargs' <- translate_capture co kw ;;
               subprocess_run (p :: args) ch enc kwargs')%py
                (snd (warn_unconfigured self w))) as [r w'] eqn:E.
    apply launch_frame in E as (_ & E2 & E3 & E4). cbn [snd].
    rewrite E2, E3, W2, W3. split; [reflexivity|]. split; [reflexivity|].
    rewrite <- W4. exact E4.
  - intros Hp. rewrite resolve_binary_path_download; [reflexivity|].
    rewrite Hp. reflexivity.
Qed.

Lemma run_binary_override_path_witness :
  let self := with_override_path (Some "/usr/local/bin/foo") Hosts.foo in
  let w := Hosts.host Hosts.env_xdg ∅ Hosts.serve_all 0 in
  fetched (snd (run_binary self ["--version"] true true "UTF-8" ∅ w)) = []
  /\ run_binary Hosts.foo ["--version"] true true "UTF-8" ∅ w =
       (binary_path <- download_binary Hosts.foo ;;
        kwargs' <- translate_capture true ∅ ;;
        subprocess_run (binary_path :: ["--version"]) true "UTF-8" kwargs')%py
         (snd (warn_unconfigured Hosts.foo w)).
Proof.
  intros self w. split.
  - apply (proj1 (run_binary_override_path self ["--version"] true true "UTF-8" ∅ w)
             "/usr/local/bin/foo"); [reflexivity|discriminate].
  - apply (proj2 (run_binary_override_path Hosts.foo ["--version"] true true
                    "UTF-8" ∅ w)). reflexivity.
Defined.

(** C5 (as stated) fails: with capture enabled, a stdout redirection, no
    override path and no cached file, [run_binary] does raise [ValueError]
    without starting a child, but only after the download was made. *)
Lemma capture_conflict_follows_download :
  ~ (forall self args ch enc kw w,
       is_Some (kw !! "stdout") \/ is_Some (kw !! "stderr") ->
       (exists m, fst (run_binary self args true ch enc kw w) = Err (ValueError m))
       /\ spawned (snd (run_binary self args true ch enc kw w)) = spawned w
       /\ fetched (snd (run_binary self args true ch enc kw w)) = fetched w).
Proof.
  intros H.
  destruct (H Hosts.foo ["--version"] true "UTF-8" {[ "stdout" := DEVNULL ]}
              (Hosts.host Hosts.env_xdg ∅ Hosts.serve_all 0))
    as (_ & _ & Hf).
  - left. vm_compute. eauto.
  - vm_compute in Hf. discriminate Hf.
Qed.

(** C5 (amended).  With capture enabled and a stdout or stderr redirection
    among the keyword arguments, [run_binary] raises and starts no child
    process.  The binary path is resolved first: if that returns, the error
    is the [ValueError] of the conflict; if it raises, its error is the one
    that reaches the caller.  With a non-empty [override_path] nothing is
    resolved remotely, so the error is the [ValueError] and no request is
    made. *)
Theorem run_binary_capture_conflict self args ch enc kw w :
  is_Some (kw !! "stdout") \/ is_Some (kw !! "stderr") ->
  spawned (snd (run_binary self args true ch enc kw w)) = spawned w
  /\ (exists e, fst (run_binary self args true ch enc kw w) = Err e)
  /\ (forall p w1,
        resolve_binary_path self (snd (warn_unconfigured self w)) = (Ok p, w1) ->
        run_binary self args true ch enc kw w =
          (Err (ValueError "Do not specify both capture_output and stdout/stderr"), w1))
  /\ (forall e w1,
        resolve_binary_path self (snd (warn_unconfigured self w)) = (Err e, w1) ->
        run_binary self args true ch enc kw w = (Err e, w1))
  /\ (truthy (override_path self) = true ->
        fst (run_binary self args true ch enc kw w)
          = Err (ValueError "Do not specify both capture_output and stdout/stderr")
        /\ fetched (snd (run_binary self args true ch enc kw w)) = fetched w).
Proof.
  intros Hkw. rewrite run_binary_eq.
  destruct (warn_unconfigured_ok self w) as (_ & _ & W2 & W3 & W4).
  set (w0 := snd (warn_unconfigured self w)) in *.
  destruct (resolve_binary_path self w0) as [[p|e] w1] eqn:E.
  - pose proof (resolve_binary_path_no_spawn self _ _ _ E) as S1.
    unfold keeps in S1.
    rewrite (bind_Ok _ _ _ _ _ E).
    rewrite (bind_Err _ _ _ _ _ (translate_capture_conflict kw w1 Hkw)).
    cbn [fst snd].
    refine (conj _ (conj _ (conj _ (conj _ _)))).
    + congruence.
    + eauto.
    + intros ? ? [= <- <-]. reflexivity.
    + intros ? ? [=].
    + intros Ht. split; [reflexivity|].
      unfold resolve_binary_path, if_truthy, truthy in E, Ht.
      destruct (override_path self) as [[|c s]|]; try discriminate.
      injection E as _ <-. exact W3.
  - pose proof (resolve_binary_path_no_spawn self _ _ _ E) as S1.
    unfold keeps in S1.
    rewrite (bind_Err _ _ _ _ _ E). cbn [fst snd].
    refine (conj _ (conj _ (conj _ (conj _ _)))).
    + congruence.
    + eauto.
    + intros ? ? [=].
    + intros ? ? [= <- <-]. reflexivity.
    + intros Ht.
      unfold resolve_binary_path, if_truthy, truthy in E, Ht.
      destruct (override_path self) as [[|c s]|]; discriminate.
Qed.

Lemma run_binary_capture_conflict_witness :
  let self := with_override_path (Some "/usr/local/bin/foo") Hosts.foo in
  let w := Hosts.host Hosts.env_xdg ∅ Hosts.serve_all 0 in
  spawned (snd (run_binary self ["--version"] true true "UTF-8"
                  {[ "stderr" := STDOUT ]} w)) = []
  /\ fst (run_binary self ["--version"] true true "UTF-8"
            {[ "stderr" := STDOUT ]} w)
     = Err (ValueError "Do not specify both capture_output and stdout/stderr").
Proof.
  intros self w.
  assert (Hkw : is_Some (({[ "stderr" := STDOUT ]} : gmap string kwval) !! "stdout")
                \/ is_Some (({[ "stderr" := STDOUT ]} : gmap string kwval) !! "stderr")).
  { right. vm_compute. eauto. }
  destruct (run_binary_capture_conflict self ["--version"] true "UTF-8"
              {[ "stderr" := STDOUT ]} w Hkw) as (H1 & _ & _ & _ & H5).
  split; [exact H1|]. apply H5. reflexivity.
Defined.

Lemma translate_capture_pipes co kw w kw' w' :
  translate_capture co kw w = (Ok kw', w') ->
  w' = w /\ (co = true -> kw' !! "stdout" = Some PIPE /\ kw' !! "stderr" = Some PIPE)
  /\ (co = false -> kw' = kw).
Proof.
  unfold translate_capture, raise, ret. destruct co.
  - destruct (_ || _); [discriminate|]. intros [= <- <-].
    split; [reflexivity|]. split; [|discriminate]. intros _.
    rewrite lookup_insert_eq, lookup_insert_ne, lookup_insert_eq by done. auto.
  - intros [= <- <-]. split; [reflexivity|]. split; [discriminate|reflexivity].
Qed.

(** C6.  Once the binary path is resolved, the keyword arguments are
    accepted and the child has run to completion with exit code [rc]: with
    check enabled and [rc] non-zero, [run_binary] raises
    [CalledProcessError] carrying [rc], the command and the output and
    stderr collected from the child; with check disabled it returns the
    [CompletedProcess] whatever [rc] is (as it does with check enabled when
    [rc] is zero).  With capture enabled, the child's stdout and stderr are
    both pipes, so the stderr carried is the captured one. *)
Theorem run_binary_check self args co enc kw w p w1 kw' rc out err :
  resolve_binary_path self (snd (warn_unconfigured self w)) = (Ok p, w1) ->
  translate_capture co kw w1 = (Ok kw', w1) ->
  popen w1 (fs w1) (mkSpawn (p :: args) enc kw') = Exited rc out err ->
  (rc <> 0 ->
     fst (run_binary self args co true enc kw w)
       = Err (CalledProcessError rc (p :: args) out err))
  /\ fst (run_binary self args co false enc kw w)
       = Ok (mkCompleted (p :: args) rc out err)
  /\ (rc = 0 ->
        fst (run_binary self args co true enc kw w)
          = Ok (mkCompleted (p :: args) rc out err))
  /\ (co = true -> kw' !! "stdout" = Some PIPE /\ kw' !! "stderr" = Some PIPE).
Proof.
  intros Hres Hkw Hchild. rewrite !run_binary_eq.
  rewrite !(bind_Ok _ _ _ _ _ Hres), !(bind_Ok _ _ _ _ _ Hkw).
  unfold subprocess_run. rewrite Hchild. cbn [andb fst].
  refine (conj _ (conj eq_refl (conj _ _))).
  - intros Hrc. apply Z.eqb_neq in Hrc. rewrite Hrc. reflexivity.
  - intros ->. reflexivity.
  - apply translate_capture_pipes in Hkw. tauto.
Qed.

Lemma run_binary_check_witness :
  let self := with_override_path (Some "/usr/local/bin/foo") Hosts.foo in
  let w := Hosts.host Hosts.env_xdg ∅ Hosts.serve_all 1 in
  fst (run_binary self ["--version"] true true "UTF-8" ∅ w)
    = Err (CalledProcessError 1 ["/usr/local/bin/foo"; "--version"]
             (Some "out") (Some "err"))
  /\ fst (run_binary self ["--version"] true false "UTF-8" ∅ w)
    = Ok (mkCompleted ["/usr/local/bin/foo"; "--version"] 1 (Some "out") (Some "err")).
Proof.
  intros self w.
  assert (H1 : resolve_binary_path self (snd (warn_unconfigured self w))
               = (Ok "/usr/local/bin/foo", snd (warn_unconfigured self w)))
    by reflexivity.
  assert (H2 : translate_capture true ∅ (snd (warn_unconfigured self w))
               = (Ok (<["stdout" := PIPE]> (<["stderr" := PIPE]> ∅)),
                  snd (warn_unconfigured self w)))
    by reflexivity.
  assert (H3 : popen (snd (warn_unconfigured self w))
                 (fs (snd (warn_unconfigured self w)))
                 (mkSpawn ("/usr/local/bin/foo" :: ["--version"]) "UTF-8"
                    (<["stdout" := PIPE]> (<["stderr" := PIPE]> ∅)))
               = Exited 1 (Some "out") (Some "err"))
    by reflexivity.
  destruct (run_binary_check self ["--version"] true "UTF-8" ∅ w _ _ _ _ _ _
              H1 H2 H3) as (Hc & Hn & _ & _).
  split; [apply Hc; discriminate|exact Hn].
Defined.

(** [download_binary] does not look at [override_path]. *)
Lemma download_binary_ignores_override_path self o :
  download_binary (with_override_path o self) = download_binary self.
Proof. destruct self. reflexivity. Qed.

(** After the request, nothing in [download_binary] makes another one. *)
Lemma download_tail_no_fetch self p remote_url local_filename :
  respects (keeps fetched)
    (os_makedirs (Path.dirname p) ;;;
     shutil_move local_filename p ;;;
     fix_file_permissions p ;;;
     LOGGER_info "Downloaded %s from %s to %s and then moved to %s"
                 [ArgStr (binary_name self); ArgStr remote_url;
                  ArgStr local_filename; ArgStr p] ;;;
     ret p)%py.
Proof.
  next_step; [by_frame os_makedirs_outside|intros _].
  next_step; [by_frame shutil_move_outside|intros _].
  next_step; [by_frame fix_file_permissions_outside|intros _].
  next_step; [by_frame LOGGER_log_outside|intros _].
  apply respects_ret; apply _.
Qed.

Lemma cached_binary_path_same_environ self w w0 p :
  environ w0 = environ w ->
  cached_binary_path self w = (Ok p, w) ->
  cached_binary_path self w0 = (Ok p, w0).
Proof.
  intros He Hp. rewrite cached_binary_path_eq in Hp |- *. rewrite He.
  apply (f_equal fst) in Hp. cbn [fst] in Hp. rewrite Hp. reflexivity.
Qed.

(** A download that finds the cache path free makes its one request,
    however it ends. *)
Lemma download_binary_requests self w p r w' :
  cached_binary_path self w = (Ok p, w) ->
  fs w !! p = None ->
  download_binary self w = (r, w') ->
  fetched w' = fetched w ++ [if_truthy (override_url self) id
                               (spec_default_url (binary_name self) (version self))].
Proof.
  intros Hp Hex. rewrite (download_binary_missing _ _ _ Hp Hex).
  rewrite (bind_Ok _ _ _ _ _ (remote_binary_url_eq self w)).
  set (url := if_truthy _ _ _). unfold bind at 1.
  destruct (urlretrieve url w) as [[tmp|e] w1] eqn:Hget;
    pose proof (urlretrieve_inv _ _ _ _ Hget) as (_ & Hf & _).
  - intros Htail. apply download_tail_no_fetch in Htail. unfold keeps in Htail.
    congruence.
  - intros [= _ <-]. exact Hf.
Qed.

(** C10.  The overrides are tested by truth value, not by presence.  With
    [override_path] the empty string, [run_binary] treats it as unset: it is
    the warning, then [download_binary], then the launch of what that
    returned; it is the same call as with [override_path] unset; and when
    the cache path is free it makes the request of the download.  With
    [override_path] a non-empty string, [run_binary] is the warning and then
    the launch of [override_path], and makes no request.  With
    [override_url] the empty string, [remote_binary_url] treats it as unset
    and returns the default template, filled in; a non-empty [override_url]
    is what it returns. *)
Theorem overrides_tested_by_truthiness self args co ch enc kw w :
  (override_path self = Some "" ->
     run_binary self args co ch enc kw w
       = (binary_path <- download_binary self ;;
          kwargs' <- translate_capture co kw ;;
          subprocess_run (binary_path :: args) ch enc kwargs')%py
           (snd (warn_unconfigured self w))
     /\ run_binary self args co ch enc kw w
        = run_binary (with_override_path None self) args co ch enc kw w
     /\ (forall p, cached_binary_path self w = (Ok p, w) -> fs w !! p = None ->
           fetched (snd (run_binary self args co ch enc kw w))
           = fetched w ++ [if_truthy (override_url self) id
                             (spec_default_url (binary_name self) (version self))]))
  /\ (forall p, override_path self = Some p -> p <> "" ->
        run_binary self args co ch enc kw w
          = (kwargs' <- translate_capture co kw ;;
             subprocess_run (p :: args) ch enc kwargs')%py
              (snd (warn_unconfigured self w))
        /\ fetched (snd (run_binary self args co ch enc kw w)) = fetched w)
  /\ (override_url self = Some "" ->
        remote_binary_url self w
          = (Ok (spec_default_url (binary_name self) (version self)), w)
        /\ remote_binary_url self w
           = remote_binary_url (with_override_url None self) w)
  /\ (forall u, override_url self = Some u -> u <> "" ->
        remote_binary_url self w = (Ok u, w)).
Proof.
  destruct (warn_unconfigured_ok self w) as (_ & W1 & W2 & W3 & _).
  refine (conj _ (conj _ (conj _ _))).
  - intros Hp.
    assert (Hr : resolve_binary_path self = download_binary self).
    { apply resolve_binary_path_download. rewrite Hp. reflexivity. }
    refine (conj _ (conj _ _)).
    + rewrite run_binary_eq, Hr. reflexivity.
    + unfold run_binary. rewrite Hr.
      rewrite (resolve_binary_path_download (with_override_path None self))
        by reflexivity.
      rewrite download_binary_ignores_override_path. reflexivity.
    + intros p Hpath Hfree. rewrite run_binary_eq, Hr.
      set (w0 := snd (warn_unconfigured self w)) in *.
      assert (Hpath0 : cached_binary_path self w0 = (Ok p, w0)).
      { apply (cached_binary_path_same_environ self w); [|exact Hpath].
        apply outside_environ, W1. }
      assert (Hfree0 : fs w0 !! p = None) by (rewrite W2; exact Hfree).
      unfold bind at 1.
      destruct (download_binary self w0) as [[bp|e] w1] eqn:Hd;
        pose proof (download_binary_requests _ _ _ _ _ Hpath0 Hfree0 Hd) as Hf.
      * destruct ((kwargs' <- translate_capture co kw ;;
                   subprocess_run (bp :: args) ch enc kwargs')%py w1)
          as [r w'] eqn:E.
        apply launch_frame in E as (_ & E2 & _). cbn [snd].
        rewrite E2, Hf, W3. reflexivity.
      * cbn [snd]. rewrite Hf, W3. reflexivity.
  - intros p Hp Hne. rewrite run_binary_eq.
    rewrite (bind_Ok _ _ _ _ _ (resolve_binary_path_override _ _ _ Hp Hne)).
    split; [reflexivity|].
    destruct ((kwargs' <- translate_capture co kw ;;
               subprocess_run (p :: args) ch enc kwargs')%py
                (snd (warn_unconfigured self w))) as [r w'] eqn:E.
    apply launch_frame in E as (_ & E2 & _). cbn [snd]. rewrite E2. exact W3.
  - intros Hu. rewrite !remote_binary_url_eq. cbn [override_url with_override_url
      binary_name version]. rewrite Hu. split; reflexivity.
  - intros u Hu Hne. rewrite remote_binary_url_eq, Hu.
    destruct u; [contradiction|reflexivity].
Qed.

Lemma overrides_tested_by_truthiness_witness :
  let w := Hosts.host Hosts.env_xdg ∅ Hosts.serve_all 0 in
  fetched (snd (run_binary (with_override_path (Some "") Hosts.foo)
                  ["--version"] true true "UTF-8" ∅ w))
    = [] ++ ["https://storage.googleapis.com/pre-commit-assets/foo/1.0/bin/foo"]
  /\ run_binary (with_override_path (Some "/usr/local/bin/foo") Hosts.foo)
       ["--version"] true true "UTF-8" ∅ w
     = (kwargs' <- translate_capture true ∅ ;;
        subprocess_run ("/usr/local/bin/foo" :: ["--version"]) true "UTF-8" kwargs')%py
         (snd (warn_unconfigured
                 (with_override_path (Some "/usr/local/bin/foo") Hosts.foo) w))
  /\ fetched (snd (run_binary (with_override_path (Some "/usr/local/bin/foo") Hosts.foo)
                     ["--version"] true true "UTF-8" ∅ w)) = []
  /\ fst (remote_binary_url (with_override_url (Some "") Hosts.foo) w)
     = Ok "https://storage.googleapis.com/pre-commit-assets/foo/1.0/bin/foo".
Proof.
  intros w.
  destruct (overrides_tested_by_truthiness
              (with_override_path (Some "") Hosts.foo)
              ["--version"] true true "UTF-8" ∅ w)
    as (H1 & _ & _ & _).
  destruct (overrides_tested_by_truthiness
              (with_override_path (Some "/usr/local/bin/foo") Hosts.foo)
              ["--version"] true true "UTF-8" ∅ w)
    as (_ & H2 & _ & _).
  destruct (overrides_tested_by_truthiness
              (with_override_url (Some "") Hosts.foo)
              ["--version"] true true "UTF-8" ∅ w)
    as (_ & _ & H3 & _).
  destruct (H1 eq_refl) as (_ & _ & H1f).
  destruct (H2 "/usr/local/bin/foo" eq_refl ltac:(discriminate)) as [H2a H2b].
  split; [apply (H1f "/tmp/c/foo/1.0/foo"); vm_compute; reflexivity|].
  split; [exact H2a|]. split; [exact H2b|].
  rewrite (proj1 (H3 eq_refl)). reflexivity.
Defined.

(** ** The end-to-end scenarios of the specification *)

(** foo 1.0 with XDG_CACHE_HOME=/tmp/c and an empty cache: the body is
    fetched from the default URL, /tmp/c/foo/1.0 is created, and the file is
    at /tmp/c/foo/1.0/foo with mode 0755. *)
Example download_foo :
  let w := Hosts.host Hosts.env_xdg ∅ Hosts.serve_all 0 in
  let r := download_binary Hosts.foo w in
  fst r = Ok "/tmp/c/foo/1.0/foo"
  /\ fetched (snd r)
     = ["https://storage.googleapis.com/pre-commit-assets/foo/1.0/bin/foo"]
  /\ is_dir (fs (snd r) !! "/tmp/c/foo/1.0") = true
  /\ node_mode <$> fs (snd r) !! "/tmp/c/foo/1.0/foo" = Some 493.
Proof. vm_compute. auto. Qed.

(** With an override URL and no cached file, the request goes to the
    override URL. *)
Example download_foo_override_url :
  let w := Hosts.host Hosts.env_xdg ∅ Hosts.serve_all 0 in
  fetched (snd (download_binary
                  (with_override_url (Some "https://example.com/foo") Hosts.foo) w))
  = ["https://example.com/foo"].
Proof. vm_compute. reflexivity. Qed.

(** [os.path.join] restarts at a component that begins with a slash: a
    binary name given as an absolute path is its own cache path. *)
Example cached_path_of_absolute_name :
  fst (cached_binary_path (__init__ "/foo" "1.0")
         (Hosts.host Hosts.env_xdg ∅ Hosts.serve_all 0))
  = Ok "/foo".
Proof. vm_compute. reflexivity. Qed.

(** The overrides come from the parsed arguments; an option given as
    [--override-foo-path=] yields the empty string. *)
Example handle_arguments_empty_path :
  override_path (handle_arguments Hosts.foo {[ "override_foo_path" := Some "" ]})
  = Some "".
Proof. vm_compute. reflexivity. Qed.

(** * Further properties of the code *)

(** ** Cache path: errors and edge cases *)

(** X1.  [cached_binary_root] and [cached_binary_path] raise exactly when
    HOME is missing from the environment, whatever XDG_CACHE_HOME is; the
    exception is then [KeyError "HOME"], and in every case the host is left
    as it was. *)
Theorem cached_binary_path_raises_iff_no_HOME self w :
  (environ w !! "HOME" = None <->
   fst (cached_binary_path self w) = Err (KeyError "HOME"))
  /\ (environ w !! "HOME" = None <->
      fst (cached_binary_root self w) = Err (KeyError "HOME"))
  /\ (forall e, fst (cached_binary_path self w) = Err e -> e = KeyError "HOME")
  /\ snd (cached_binary_path self w) = w
  /\ snd (cached_binary_root self w) = w.
Proof.
  rewrite cached_binary_path_eq, cached_binary_root_eq. cbn [fst snd].
  destruct (environ w !! "HOME") as [home|].
  - repeat split; try discriminate; intros [=].
  - repeat split; try reflexivity. intros e [= <-]. reflexivity.
Qed.

Lemma cached_binary_path_raises_iff_no_HOME_witness :
  fst (cached_binary_path Hosts.foo
         (Hosts.host Hosts.env_xdg_only ∅ Hosts.serve_all 0))
  = Err (KeyError "HOME").
Proof.
  apply (proj1 (proj1 (cached_binary_path_raises_iff_no_HOME Hosts.foo
                         (Hosts.host Hosts.env_xdg_only ∅ Hosts.serve_all 0)))).
  vm_compute. reflexivity.
Defined.

Lemma join2_empty b : Path.join2 EmptyString b = b.
Proof. unfold Path.join2. destruct (Path.startswith_sep b); reflexivity. Qed.

(** X2.  An XDG_CACHE_HOME that is set to the empty string is used as it
    is: there is no fall-back to HOME, and for a plain name and version the
    cache path is the relative path <binary_name>/<version>/<binary_name>. *)
Theorem cached_binary_path_empty_XDG self w home :
  environ w !! "HOME" = Some home ->
  environ w !! "XDG_CACHE_HOME" = Some "" ->
  segment (binary_name self) = true ->
  segment (version self) = true ->
  cached_binary_path self w =
    (Ok (binary_name self +:+ "/" +:+ version self +:+ "/" +:+ binary_name self), w).
Proof.
  intros Hhome Hxdg Hn Hv. rewrite cached_binary_path_eq, Hhome, Hxdg.
  cbn [from_option id]. unfold Path.join. cbn [fold_left].
  rewrite join2_empty.
  unfold segment in Hn, Hv.
  apply andb_prop in Hn as [Hn1 Hn2]. apply andb_prop in Hv as [Hv1 Hv2].
  apply negb_true_iff in Hn1, Hv1.
  rewrite (join2_slash _ (version self)) by assumption.
  rewrite join2_slash; [|apply joinable_slash|]; try assumption.
  rewrite app_assoc_s. reflexivity.
Qed.

Lemma cached_binary_path_empty_XDG_witness :
  cached_binary_path Hosts.foo
    (Hosts.host {[ "HOME" := "/home/u"; "XDG_CACHE_HOME" := "" ]} ∅ Hosts.serve_all 0)
  = (Ok "foo/1.0/foo",
     Hosts.host {[ "HOME" := "/home/u"; "XDG_CACHE_HOME" := "" ]} ∅ Hosts.serve_all 0).
Proof.
  apply (cached_binary_path_empty_XDG Hosts.foo
           (Hosts.host {[ "HOME" := "/home/u"; "XDG_CACHE_HOME" := "" ]} ∅
                       Hosts.serve_all 0) "/home/u");
    vm_compute; reflexivity.
Defined.

(** [os.path.join] only appends when the component is relative. *)
Lemma join2_extends a b :
  Path.startswith_sep b = false -> exists s, Path.join2 a b = a +:+ s.
Proof.
  intros Hb. unfold Path.join2. rewrite Hb.
  destruct (Path.is_empty a || Path.endswith_sep a); eauto.
Qed.

Lemma join2_absolute a b : Path.startswith_sep b = true -> Path.join2 a b = b.
Proof. intros Hb. unfold Path.join2. rewrite Hb. reflexivity. Qed.

(** X3.  When [binary_name] and [version] do not start with a slash, the
    cache path lies under the cache root, which lies under the cache home
    (XDG_CACHE_HOME if set, else the join of HOME and .cache): each is the
    previous one with text appended. *)
Theorem cached_binary_path_under_root self w home :
  environ w !! "HOME" = Some home ->
  Path.startswith_sep (binary_name self) = false ->
  Path.startswith_sep (version self) = false ->
  exists root s1 s2,
    cached_binary_root self w = (Ok root, w)
    /\ root = default (Path.join home [".cache"]) (environ w !! "XDG_CACHE_HOME") +:+ s1
    /\ cached_binary_path self w = (Ok (root +:+ s2), w).
Proof.
  intros Hhome Hn Hv.
  rewrite cached_binary_root_eq, cached_binary_path_eq, Hhome.
  set (cache := default _ _). unfold Path.join. cbn [fold_left].
  destruct (join2_extends cache _ Hn) as [s1 E1].
  destruct (join2_extends (Path.join2 cache (binary_name self)) _ Hv) as [s2 E2].
  destruct (join2_extends
              (Path.join2 (Path.join2 cache (binary_name self)) (version self))
              _ Hn) as [s3 E3].
  exists (Path.join2 cache (binary_name self)), s1, (s2 +:+ s3).
  split; [reflexivity|]. split; [exact E1|].
  rewrite E3, E2, app_assoc_s. reflexivity.
Qed.

Lemma cached_binary_path_under_root_witness :
  exists root s1 s2,
    cached_binary_root Hosts.foo (Hosts.host Hosts.env_xdg_slash ∅ Hosts.serve_all 0)
      = (Ok root, Hosts.host Hosts.env_xdg_slash ∅ Hosts.serve_all 0)
    /\ root = default (Path.join "/home/u" [".cache"])
                (environ (Hosts.host Hosts.env_xdg_slash ∅ Hosts.serve_all 0)
                   !! "XDG_CACHE_HOME") +:+ s1
    /\ cached_binary_path Hosts.foo (Hosts.host Hosts.env_xdg_slash ∅ Hosts.serve_all 0)
       = (Ok (root +:+ s2), Hosts.host Hosts.env_xdg_slash ∅ Hosts.serve_all 0).
Proof.
  apply (cached_binary_path_under_root Hosts.foo
           (Hosts.host Hosts.env_xdg_slash ∅ Hosts.serve_all 0) "/home/u");
    vm_compute; reflexivity.
Defined.

(** X4.  A [binary_name] that starts with a slash is its own cache path:
    [os.path.join] drops everything before an absolute component, so
    neither the cache home nor the version is part of the path. *)
Theorem cached_binary_path_absolute_name self w home :
  environ w !! "HOME" = Some home ->
  Path.startswith_sep (binary_name self) = true ->
  cached_binary_path self w = (Ok (binary_name self), w)
  /\ cached_binary_root self w = (Ok (binary_name self), w).
Proof.
  intros Hhome Hn. rewrite cached_binary_path_eq, cached_binary_root_eq, Hhome.
  unfold Path.join. cbn [fold_left]. rewrite !(join2_absolute _ _ Hn).
  split; reflexivity.
Qed.

Lemma cached_binary_path_absolute_name_witness :
  cached_binary_path (__init__ "/usr/bin/env" "1.0")
    (Hosts.host Hosts.env_xdg ∅ Hosts.serve_all 0)
  = (Ok "/usr/bin/env", Hosts.host Hosts.env_xdg ∅ Hosts.serve_all 0).
Proof.
  apply (cached_binary_path_absolute_name (__init__ "/usr/bin/env" "1.0")
           (Hosts.host Hosts.env_xdg ∅ Hosts.serve_all 0) "/home/u");
    vm_compute; reflexivity.
Defined.

(** ** Argument registration and consumption *)

Lemma length_app_s (a b : string) :
  String.length (a +:+ b) = (String.length a + String.length b)%nat.
Proof. induction a as [|c a IH]; [reflexivity|]. rewrite app_cons. cbn. lia. Qed.

Lemma app_inv_tail_s (a b c : string) : a +:+ c = b +:+ c -> a = b.
Proof.
  revert b. induction a as [|x a IH]; intros [|y b] H.
  - reflexivity.
  - apply (f_equal String.length) in H. rewrite app_empty, length_app_s in H.
    cbn in H. lia.
  - apply (f_equal String.length) in H. rewrite app_empty, length_app_s in H.
    cbn in H. lia.
  - rewrite !app_cons in H. injection H as -> H. f_equal. auto.
Qed.

Lemma last_char_app a b :
  Path.is_empty b = false -> last_char (a +:+ b) = last_char b.
Proof.
  intros Hb. induction a as [|c a IH]; [reflexivity|].
  rewrite app_cons. cbn [last_char].
  destruct (a +:+ b) eqn:E; [|exact IH].
  pose proof (is_empty_app a b) as He. rewrite E, Hb, andb_false_r in He.
  discriminate.
Qed.

Lemma replace_dash_app a b :
  replace_dash (a +:+ b) = replace_dash a +:+ replace_dash b.
Proof.
  induction a as [|c a IH]; [reflexivity|].
  rewrite app_cons. cbn [replace_dash]. rewrite IH. reflexivity.
Qed.

Lemma replace_dash_no_dash s : has_dash s = false -> replace_dash s = s.
Proof.
  induction s as [|c s IH]; [reflexivity|]. cbn.
  intros [Hc Hs]%orb_false_elim. rewrite Hc, IH by exact Hs. reflexivity.
Qed.

Lemma has_dash_replace_dash s : has_dash (replace_dash s) = false.
Proof.
  induction s as [|c s IH]; [reflexivity|]. cbn.
  destruct (Ascii.eqb c dash) eqn:E; cbn; rewrite ?E; exact IH.
Qed.

Lemma has_dash_app a b : has_dash (a +:+ b) = has_dash a || has_dash b.
Proof.
  induction a as [|c a IH]; [reflexivity|].
  rewrite app_cons. cbn. rewrite IH, orb_assoc. reflexivity.
Qed.

(** The destinations that [argparse] infers for the two options. *)
Lemma path_dest name :
  replace_dash (lstrip_dash ("--" +:+ "override-" +:+ name +:+ "-path"))
  = "override_" +:+ replace_dash name +:+ "_path".
Proof.
  change (lstrip_dash ("--" +:+ "override-" +:+ name +:+ "-path"))
    with ("override-" +:+ name +:+ "-path").
  rewrite !replace_dash_app. reflexivity.
Qed.

Lemma url_dest name :
  replace_dash (lstrip_dash ("--" +:+ "override-" +:+ name +:+ "-url"))
  = "override_" +:+ replace_dash name +:+ "_url".
Proof.
  change (lstrip_dash ("--" +:+ "override-" +:+ name +:+ "-url"))
    with ("override-" +:+ name +:+ "-url").
  rewrite !replace_dash_app. reflexivity.
Qed.

Lemma registered_app opt parser a :
  registered opt (parser ++ [a])
  = registered opt parser || String.eqb (option_string a) opt.
Proof. unfold registered. rewrite existsb_app. cbn. rewrite orb_false_r. reflexivity. Qed.

Lemma path_option_ne_url_option self1 self2 : path_option self1 <> url_option self2.
Proof.
  unfold path_option, url_option. intros H.
  apply (f_equal last_char) in H.
  rewrite <- !app_assoc_s, !last_char_app in H by reflexivity.
  discriminate H.
Qed.

Lemma path_option_inj self1 self2 :
  path_option self1 = path_option self2 -> binary_name self1 = binary_name self2.
Proof.
  unfold path_option. intros H. apply (inj (String.app _)) in H.
  exact (app_inv_tail_s _ _ _ H).
Qed.

Lemma url_option_inj self1 self2 :
  url_option self1 = url_option self2 -> binary_name self1 = binary_name self2.
Proof.
  unfold url_option. intros H. apply (inj (String.app _)) in H.
  exact (app_inv_tail_s _ _ _ H).
Qed.

Lemma add_long_option_path self parser :
  add_long_option ("override-" +:+ binary_name self +:+ "-path")
                  (path_help self) parser
  = if registered (path_option self) parser
    then inl (ArgumentError (path_option self)
                ("conflicting option string: " +:+ path_option self))
    else inr (parser ++ [path_action self]).
Proof.
  unfold add_long_option, path_action. rewrite path_dest. reflexivity.
Qed.

Lemma add_long_option_url self target parser :
  add_long_option ("override-" +:+ binary_name self +:+ "-url")
                  (url_help self target) parser
  = if registered (url_option self) parser
    then inl (ArgumentError (url_option self)
                ("conflicting option string: " +:+ url_option self))
    else inr (parser ++ [url_action self target]).
Proof.
  unfold add_long_option, url_action. rewrite url_dest. reflexivity.
Qed.

(** [add_arguments], case by case. *)
Lemma add_arguments_eq self parser w :
  add_arguments self parser w =
    let self' := mark_add_arguments_called self in
    if registered (path_option self) parser then
      mkAddOutcome (Some (ArgumentError (path_option self)
                            ("conflicting option string: " +:+ path_option self)))
                   self' parser w
    else
      match fst (cached_binary_path self w) with
      | Err e => mkAddOutcome (Some (Builtin e)) self' (parser ++ [path_action self]) w
      | Ok target =>
          if registered (url_option self) parser then
            mkAddOutcome (Some (ArgumentError (url_option self)
                                  ("conflicting option string: " +:+ url_option self)))
                         self' (parser ++ [path_action self]) w
          else
            mkAddOutcome None self'
              (parser ++ [path_action self; url_action self target]) w
      end.
Proof.
  unfold add_arguments. cbv zeta.
  change (binary_name (mark_add_arguments_called self)) with (binary_name self).
  change (path_help (mark_add_arguments_called self)) with (path_help self).
  rewrite add_long_option_path.
  destruct (registered (path_option self) parser) eqn:Hreg; [reflexivity|].
  change (cached_binary_path (mark_add_arguments_called self))
    with (cached_binary_path self).
  rewrite cached_binary_path_eq. cbn [fst].
  destruct (environ w !! "HOME") as [home|]; [|reflexivity].
  change (url_help (mark_add_arguments_called self)) with (url_help self).
  rewrite add_long_option_url, registered_app. cbn [option_string path_action].
  assert (Hne : String.eqb (path_option self) (url_option self) = false).
  { apply String.eqb_neq, path_option_ne_url_option. }
  rewrite Hne, orb_false_r.
  destruct (registered (url_option self) parser); [reflexivity|].
  rewrite <- app_assoc. reflexivity.
Qed.

(** X5.  With HOME set and neither option string taken, [add_arguments]
    raises nothing, marks the instance, leaves its other fields and the host
    alone, and appends exactly two actions to the parser, in this order:
    --override-<binary_name>-path and --override-<binary_name>-url, the
    second with the cache path in its help text. *)
Theorem add_arguments_registers_two_options self parser w target :
  cached_binary_path self w = (Ok target, w) ->
  registered (path_option self) parser = false ->
  registered (url_option self) parser = false ->
  add_arguments self parser w =
    mkAddOutcome None (mark_add_arguments_called self)
      (parser ++ [path_action self; url_action self target]) w.
Proof.
  intros Hp H1 H2. rewrite add_arguments_eq. cbv zeta.
  rewrite H1, Hp, H2. reflexivity.
Qed.

Lemma add_arguments_registers_two_options_witness :
  map option_string
    (add_parser (add_arguments Hosts.foo []
                   (Hosts.host Hosts.env_xdg ∅ Hosts.serve_all 0)))
  = ["--override-foo-path"; "--override-foo-url"].
Proof.
  rewrite (add_arguments_registers_two_options Hosts.foo []
             (Hosts.host Hosts.env_xdg ∅ Hosts.serve_all 0) "/tmp/c/foo/1.0/foo");
    vm_compute; reflexivity.
Defined.

(** X6.  With HOME missing, [add_arguments] raises [KeyError "HOME"] from
    the cache path it computes for the help text.  By then the instance is
    marked as set up and the path option is registered; the URL option is
    not. *)
Theorem add_arguments_without_HOME self parser w :
  environ w !! "HOME" = None ->
  registered (path_option self) parser = false ->
  add_arguments self parser w =
    mkAddOutcome (Some (Builtin (KeyError "HOME")))
      (mark_add_arguments_called self) (parser ++ [path_action self]) w
  /\ registered (url_option self) (parser ++ [path_action self])
     = registered (url_option self) parser.
Proof.
  intros Hhome H1. rewrite add_arguments_eq. cbv zeta.
  rewrite H1, cached_binary_path_eq, Hhome. cbn [fst].
  split; [reflexivity|].
  rewrite registered_app. cbn [option_string path_action].
  assert (Hne : String.eqb (path_option self) (url_option self) = false).
  { apply String.eqb_neq, path_option_ne_url_option. }
  rewrite Hne, orb_false_r. reflexivity.
Qed.

Lemma add_arguments_without_HOME_witness :
  let o := add_arguments Hosts.foo []
             (Hosts.host Hosts.env_xdg_only ∅ Hosts.serve_all 0) in
  add_raised o = Some (Builtin (KeyError "HOME"))
  /\ _add_arguments_called (add_self o) = true
  /\ map option_string (add_parser o) = ["--override-foo-path"].
Proof.
  intros o. subst o.
  rewrite (proj1 (add_arguments_without_HOME Hosts.foo []
                    (Hosts.host Hosts.env_xdg_only ∅ Hosts.serve_all 0)
                    eq_refl eq_refl)).
  repeat split.
Defined.

(** What a call that raised nothing has put into the parser. *)
Lemma add_arguments_success_inv self parser w :
  add_raised (add_arguments self parser w) = None ->
  exists target,
    add_parser (add_arguments self parser w)
    = parser ++ [path_action self; url_action self target].
Proof.
  rewrite add_arguments_eq. cbv zeta.
  destruct (registered (path_option self) parser); [discriminate|].
  destruct (fst (cached_binary_path self w)) as [target|e]; [|discriminate].
  destruct (registered (url_option self) parser); [discriminate|].
  intros _. exists target. reflexivity.
Qed.

(** X7.  Registering the same binary name twice on one parser fails: after
    an [add_arguments] that raised nothing, an [add_arguments] of any
    instance with the same [binary_name] on the resulting parser raises
    [ArgumentError] for the path option and adds nothing. *)
Theorem add_arguments_twice_conflicts self1 self2 parser w1 w2 :
  add_raised (add_arguments self1 parser w1) = None ->
  binary_name self2 = binary_name self1 ->
  add_raised (add_arguments self2 (add_parser (add_arguments self1 parser w1)) w2)
    = Some (ArgumentError (path_option self1)
              ("conflicting option string: " +:+ path_option self1))
  /\ add_parser (add_arguments self2 (add_parser (add_arguments self1 parser w1)) w2)
     = add_parser (add_arguments self1 parser w1).
Proof.
  intros Hok Hname.
  destruct (add_arguments_success_inv _ _ _ Hok) as [target ->].
  assert (Hopt : path_option self2 = path_option self1).
  { unfold path_option. rewrite Hname. reflexivity. }
  rewrite add_arguments_eq. cbv zeta. rewrite Hopt.
  assert (Hreg : registered (path_option self1)
                   (parser ++ [path_action self1; url_action self1 target]) = true).
  { unfold registered. rewrite existsb_app. cbn.
    rewrite String.eqb_refl, orb_true_r. reflexivity. }
  rewrite Hreg. split; reflexivity.
Qed.

Lemma add_arguments_twice_conflicts_witness :
  let w := Hosts.host Hosts.env_xdg ∅ Hosts.serve_all 0 in
  add_raised (add_arguments (__init__ "foo" "2.0")
                (add_parser (add_arguments Hosts.foo [] w)) w)
  = Some (ArgumentError "--override-foo-path"
            "conflicting option string: --override-foo-path").
Proof.
  intros w.
  apply (proj1 (add_arguments_twice_conflicts Hosts.foo (__init__ "foo" "2.0")
                  [] w w eq_refl eq_refl)).
Defined.

(** X8.  [add_arguments] never takes the option names of a binary with
    another name: whether an option string of [self2] is registered is the
    same before and after any [add_arguments] of [self1]. *)
Theorem add_arguments_other_names_free self1 self2 parser w :
  binary_name self1 <> binary_name self2 ->
  registered (path_option self2) (add_parser (add_arguments self1 parser w))
    = registered (path_option self2) parser
  /\ registered (url_option self2) (add_parser (add_arguments self1 parser w))
     = registered (url_option self2) parser.
Proof.
  intros Hne.
  assert (P1 : String.eqb (path_option self1) (path_option self2) = false).
  { apply String.eqb_neq. intros H. apply Hne, path_option_inj, H. }
  assert (P2 : String.eqb (url_option self1) (path_option self2) = false).
  { apply String.eqb_neq. intros H. symmetry in H.
    exact (path_option_ne_url_option _ _ H). }
  assert (U1 : String.eqb (path_option self1) (url_option self2) = false).
  { apply String.eqb_neq, path_option_ne_url_option. }
  assert (U2 : String.eqb (url_option self1) (url_option self2) = false).
  { apply String.eqb_neq. intros H. apply Hne, url_option_inj, H. }
  rewrite add_arguments_eq. cbv zeta.
  destruct (registered (path_option self1) parser); [split; reflexivity|].
  destruct (fst (cached_binary_path self1 w)) as [target|e];
    [destruct (registered (url_option self1) parser)|];
    cbn [add_parser]; unfold registered; rewrite !existsb_app; cbn;
    rewrite ?P1, ?P2, ?U1, ?U2, ?orb_false_r; split; reflexivity.
Qed.

Lemma add_arguments_other_names_free_witness :
  let w := Hosts.host Hosts.env_xdg ∅ Hosts.serve_all 0 in
  registered "--override-bar-path" (add_parser (add_arguments Hosts.foo [] w)) = false.
Proof.
  intros w.
  apply (proj1 (add_arguments_other_names_free Hosts.foo (__init__ "bar" "1.0") [] w
                  ltac:(discriminate))).
Defined.

Lemma handle_arguments_overrides self ns :
  override_path (handle_arguments self ns) = default None (ns !! path_attribute self)
  /\ override_url (handle_arguments self ns) = default None (ns !! url_attribute self).
Proof. split; reflexivity. Qed.

(** X9.  For a [binary_name] without a dash, the destinations under which
    [argparse] stores the two options that [add_arguments] registered are
    the attributes that [handle_arguments] reads: what the namespace holds
    under them becomes [override_path] and [override_url] (and a missing
    attribute becomes [None]). *)
Theorem handle_arguments_reads_registered_dests self parser w ns :
  has_dash (binary_name self) = false ->
  add_raised (add_arguments self parser w) = None ->
  exists a_path a_url,
    add_parser (add_arguments self parser w) = parser ++ [a_path; a_url]
    /\ option_string a_path = path_option self
    /\ option_string a_url = url_option self
    /\ override_path (handle_arguments (add_self (add_arguments self parser w)) ns)
       = default None (ns !! dest a_path)
    /\ override_url (handle_arguments (add_self (add_arguments self parser w)) ns)
       = default None (ns !! dest a_url).
Proof.
  intros Hd Hok.
  destruct (add_arguments_success_inv _ _ _ Hok) as [target Hparser].
  exists (path_action self), (url_action self target).
  split; [exact Hparser|]. split; [reflexivity|]. split; [reflexivity|].
  assert (Hself : add_self (add_arguments self parser w)
                  = mark_add_arguments_called self).
  { rewrite add_arguments_eq. cbv zeta.
    destruct (registered (path_option self) parser); [reflexivity|].
    destruct (fst (cached_binary_path self w));
      [destruct (registered (url_option self) parser)|]; reflexivity. }
  rewrite Hself. cbn [dest path_action url_action].
  rewrite (replace_dash_no_dash _ Hd). split; reflexivity.
Qed.

Lemma handle_arguments_reads_registered_dests_witness :
  let w := Hosts.host Hosts.env_xdg ∅ Hosts.serve_all 0 in
  exists a_path a_url,
    add_parser (add_arguments Hosts.foo [] w) = [] ++ [a_path; a_url]
    /\ option_string a_path = "--override-foo-path"
    /\ option_string a_url = "--override-foo-url"
    /\ override_path
         (handle_arguments (add_self (add_arguments Hosts.foo [] w))
            {[ "override_foo_path" := Some "/usr/local/bin/foo" ]})
       = default None (({[ "override_foo_path" := Some "/usr/local/bin/foo" ]}
                          : gmap string (option string)) !! dest a_path)
    /\ override_url
         (handle_arguments (add_self (add_arguments Hosts.foo [] w))
            {[ "override_foo_path" := Some "/usr/local/bin/foo" ]})
       = default None (({[ "override_foo_path" := Some "/usr/local/bin/foo" ]}
                          : gmap string (option string)) !! dest a_url).
Proof.
  intros w.
  apply (handle_arguments_reads_registered_dests Hosts.foo [] w
           {[ "override_foo_path" := Some "/usr/local/bin/foo" ]});
    reflexivity.
Defined.

(** X10.  For a [binary_name] that contains a dash the two do not meet:
    every destination that [add_arguments] registers is free of dashes
    ([argparse] turns them into underscores), while the attributes that
    [handle_arguments] reads contain the dash of the name.  So on a namespace
    whose attribute names are free of dashes, [handle_arguments] sets both
    overrides to [None], whatever the namespace holds. *)
Theorem handle_arguments_dash_in_name self w ns :
  has_dash (binary_name self) = true ->
  (forall a, In a (add_parser (add_arguments self [] w)) -> has_dash (dest a) = false)
  /\ ((forall k, is_Some (ns !! k) -> has_dash k = false) ->
      override_path (handle_arguments self ns) = None
      /\ override_url (handle_arguments self ns) = None).
Proof.
  intros Hd. split.
  - rewrite add_arguments_eq. cbv zeta. cbn [registered existsb].
    assert (D1 : has_dash (dest (path_action self)) = false).
    { cbn [dest path_action].
      rewrite !has_dash_app, has_dash_replace_dash. reflexivity. }
    assert (D2 : forall t, has_dash (dest (url_action self t)) = false).
    { intros t. cbn [dest url_action].
      rewrite !has_dash_app, has_dash_replace_dash. reflexivity. }
    destruct (fst (cached_binary_path self w)) as [target|e];
      cbn [add_parser app]; intros a Ha; cbn [In] in Ha;
      intuition (subst; auto).
  - intros Hns.
    destruct (handle_arguments_overrides self ns) as [-> ->].
    assert (K1 : has_dash (path_attribute self) = true).
    { unfold path_attribute. rewrite !has_dash_app, Hd, orb_true_r. reflexivity. }
    assert (K2 : has_dash (url_attribute self) = true).
    { unfold url_attribute. rewrite !has_dash_app, Hd, orb_true_r. reflexivity. }
    split.
    + destruct (ns !! path_attribute self) eqn:E; [|reflexivity].
      rewrite Hns in K1 by eauto. discriminate.
    + destruct (ns !! url_attribute self) eqn:E; [|reflexivity].
      rewrite Hns in K2 by eauto. discriminate.
Qed.

Lemma handle_arguments_dash_in_name_witness :
  let self := __init__ "pre-commit" "3.0" in
  let w := Hosts.host Hosts.env_xdg ∅ Hosts.serve_all 0 in
  map dest (add_parser (add_arguments self [] w))
    = ["override_pre_commit_path"; "override_pre_commit_url"]
  /\ override_path
       (handle_arguments self
          {[ "override_pre_commit_path" := Some "/usr/local/bin/pre-commit" ]})
     = None.
Proof.
  intros self w.
  destruct (handle_arguments_dash_in_name self w
              {[ "override_pre_commit_path" := Some "/usr/local/bin/pre-commit" ]}
              eq_refl) as [_ H].
  split; [vm_compute; reflexivity|].
  apply H. intros k [v Hk].
  apply lookup_singleton_Some in Hk as [<- _]. reflexivity.
Defined.

(** ** Paths: [dirname] and the directories of [os.makedirs] *)

Lemma length_rev_app (a b : string) :
  String.length (String.rev_app a b) = (String.length a + String.length b)%nat.
Proof.
  revert b. induction a as [|c a IH]; intros b; [reflexivity|].
  cbn [String.rev_app]. rewrite IH. cbn. lia.
Qed.

Lemma length_rev (s : string) : String.length (String.rev s) = String.length s.
Proof. unfold String.rev. rewrite length_rev_app. cbn. lia. Qed.

Lemma length_rstrip_sep s : (String.length (Path.rstrip_sep s) <= String.length s)%nat.
Proof.
  induction s as [|c s IH]; [reflexivity|]. cbn [Path.rstrip_sep].
  destruct (Path.is_empty (Path.rstrip_sep s) && Ascii.eqb c Path.sep); cbn; lia.
Qed.

Lemma length_rstrip_sep_lt s :
  Path.endswith_sep s = true ->
  (String.length (Path.rstrip_sep s) < String.length s)%nat.
Proof.
  induction s as [|c s IH]; [discriminate|].
  cbn [Path.endswith_sep Path.rstrip_sep]. destruct s as [|c' s'].
  - intros ->. cbn. lia.
  - intros H. specialize (IH H).
    destruct (Path.is_empty (Path.rstrip_sep (String c' s')) && Ascii.eqb c Path.sep);
      cbn [String.length] in *; lia.
Qed.

Lemma rsplit_sep_spec p :
  p = fst (Path.rsplit_sep p) +:+ snd (Path.rsplit_sep p)
  /\ (Path.is_empty (fst (Path.rsplit_sep p)) = true
      \/ Path.endswith_sep (fst (Path.rsplit_sep p)) = true).
Proof.
  induction p as [|c p [IH1 IH2]]; [split; [reflexivity|left; reflexivity]|].
  cbn [Path.rsplit_sep]. destruct (Path.rsplit_sep p) as [h t]. cbn [fst snd] in *.
  destruct h as [|x h]; cbn [negb Path.is_empty].
  - rewrite app_empty in IH1. subst t.
    destruct (Ascii.eqb c Path.sep) eqn:E; cbn [fst snd].
    + split; [reflexivity|]. right. exact E.
    + split; [reflexivity|]. left. reflexivity.
  - cbn [fst snd]. split.
    + rewrite app_cons. f_equal. exact IH1.
    + right. destruct IH2 as [IH2|IH2]; [discriminate|exact IH2].
Qed.

Lemma all_sep_app a b : Path.all_sep (a +:+ b) = Path.all_sep a && Path.all_sep b.
Proof.
  induction a as [|c a IH]; [reflexivity|].
  rewrite app_cons. cbn. rewrite IH, andb_assoc. reflexivity.
Qed.

(** Unless a path is empty or made of slashes only, its [dirname] is
    strictly shorter. *)
Lemma length_dirname p :
  Path.all_sep p = false ->
  (String.length (Path.dirname p) < String.length p)%nat.
Proof.
  intros Hp. destruct (rsplit_sep_spec p) as [Happ Hend].
  unfold Path.dirname.
  set (h := fst (Path.rsplit_sep p)) in *. set (t := snd (Path.rsplit_sep p)) in *.
  assert (Hlen : String.length p = (String.length h + String.length t)%nat).
  { rewrite Happ at 1. apply length_app_s. }
  destruct (Path.is_empty h) eqn:He; cbn [negb andb].
  - destruct h; [|discriminate]. destruct p; [discriminate|]. cbn. lia.
  - destruct Hend as [Hend|Hend]; [discriminate|].
    destruct (Path.all_sep h) eqn:Hall; cbn [negb].
    + destruct t as [|c t].
      * rewrite Happ, all_sep_app, Hall in Hp. discriminate.
      * cbn [String.length] in Hlen. lia.
    + pose proof (length_rstrip_sep_lt h Hend). lia.
Qed.

Lemma parents_go_length seen rest q :
  In q (Path.parents_go seen rest) ->
  (String.length q <= String.length seen + String.length rest)%nat.
Proof.
  revert seen. induction rest as [|c r IH]; intros seen; cbn [Path.parents_go].
  - destruct (Path.is_empty seen); [intros []|].
    intros [<-|[]]. rewrite length_rev. lia.
  - intros H. apply in_app_or in H as [H|H].
    + destruct (_ && _); [|destruct H]. destruct H as [<-|[]].
      rewrite length_rev. lia.
    + apply IH in H. cbn [String.length] in *. lia.
Qed.

Lemma parents_length d q :
  In q (Path.parents d) -> (String.length q <= String.length d)%nat.
Proof.
  unfold Path.parents. intros H. apply in_app_or in H as [H|H].
  - destruct d as [|c d]; [destruct H|]. cbn [Path.startswith_sep] in H.
    destruct (Ascii.eqb c Path.sep); [|destruct H].
    destruct H as [<-|[]]. cbn. lia.
  - apply parents_go_length in H. pose proof (length_rstrip_sep d).
    cbn [String.length] in H. lia.
Qed.

(** [os.makedirs] on the directory of a path does not create the path
    itself. *)
Lemma not_own_parent p :
  Path.all_sep p = false -> ~ In p (Path.parents (Path.dirname p)).
Proof.
  intros Hp H. apply parents_length in H. pose proof (length_dirname p Hp). lia.
Qed.

(** ** What the file-system calls change *)

Lemma mkdir_all_lookup ps under_file w r w' q :
  mkdir_all under_file ps w = (r, w') ->
  (~ In q ps -> fs w' !! q = fs w !! q)
  /\ (forall n, fs w !! q = Some n -> fs w' !! q = Some n).
Proof.
  revert under_file w. induction ps as [|p ps IH]; intros under_file w;
    cbn [mkdir_all].
  - intros [= <- <-]. auto.
  - destruct (Path.has_nul p); [intros [= <- <-]; auto|].
    destruct under_file; [intros [= <- <-]; auto|].
    destruct (fs w !! p) as [[m body|m]|] eqn:E.
    + destruct ps as [|p' ps']; [intros [= <- <-]; auto|].
      intros H. apply IH in H as [H1 H2]. split; [|exact H2].
      intros Hq. apply H1. cbn [In] in Hq |- *. tauto.
    + intros H. apply IH in H as [H1 H2]. split; [|exact H2].
      intros Hq. apply H1. cbn [In] in Hq. tauto.
    + destruct (mkdir_denied w p); [intros [= <- <-]; auto|].
      intros H. apply IH in H as [H1 H2]. cbn [fs set_fs] in H1, H2. split.
      * intros Hq. cbn [In] in Hq. rewrite H1 by tauto.
        apply lookup_insert_ne. intros ->. tauto.
      * intros n Hn. apply H2. rewrite lookup_insert_ne; [exact Hn|].
        congruence.
Qed.

Lemma os_makedirs_lookup name w r w' q :
  os_makedirs name w = (r, w') ->
  (~ In q (Path.parents name) -> fs w' !! q = fs w !! q)
  /\ (forall n, fs w !! q = Some n -> fs w' !! q = Some n).
Proof.
  unfold os_makedirs. destruct (Path.is_empty name).
  - intros [= <- <-]. auto.
  - apply mkdir_all_lookup.
Qed.

Lemma urlretrieve_Ok_inv url w tmp w1 :
  urlretrieve url w = (Ok tmp, w1) ->
  exists body,
    urlopen w url = Served body
    /\ tmp = tempname w (ntemp w)
    /\ fs w1 = <[tmp := File 384 body]> (fs w).
Proof.
  unfold urlretrieve. destruct (urlopen w url) as [body|e|partial e];
    try discriminate.
  intros [= <- <-]. eauto.
Qed.


(** A move of a regular file onto a path that is not a directory. *)
Lemma shutil_move_file src dst w w' m body :
  shutil_move src dst w = (Ok tt, w') ->
  fs w !! src = Some (File m body) ->
  is_dir (fs w !! dst) = false ->
  fs w' = <[dst := File m body]> (delete src (fs w)).
Proof.
  unfold shutil_move. intros H Hsrc Hdst.
  destruct (Path.has_nul src || Path.has_nul dst); [discriminate|].
  rewrite Hsrc, Hdst in H.
  cbn [andb] in H. destruct (rename_denied w src dst); [discriminate|].
  injection H as <-. reflexivity.
Qed.




(** ** Download: failures, requests, and what ends up on disk *)



(** X12.  When the cache path is free and the request fails, its error
    reaches the caller and the cache path stays free.  If the request was
    refused, the host is as before except for the request made: nothing is
    written, created or logged.  If it broke off after the temporary file
    was created, that file is left behind with what had arrived, and nothing
    else is changed: no directory is made and nothing is logged.  Nothing is
    remembered: after a refused request the next call makes the same request
    again. *)
Theorem download_binary_failed_fetch self w p url e :
  cached_binary_path self w = (Ok p, w) ->
  fs w !! p = None ->
  remote_binary_url self w = (Ok url, w) ->
  (urlopen w url = Refused e ->
     download_binary self w = (Err e, set_fetched (fetched w ++ [url]) w)
     /\ download_binary self (set_fetched (fetched w ++ [url]) w)
        = (Err e, set_fetched (fetched w ++ [url; url]) w))
  /\ (forall partial, urlopen w url = Truncated partial e ->
        download_binary self w
        = (Err e,
           set_fs (<[tempname w (ntemp w) := File 384 partial]> (fs w))
             (set_ntemp (S (ntemp w)) (set_fetched (fetched w ++ [url]) w)))
        /\ (tempname w (ntemp w) <> p ->
            fs (snd (download_binary self w)) !! p = None)).
Proof.
  intros Hp Hex Hurl.
  assert (Hstep : forall l,
            download_binary self (set_fetched l w)
            = (remote_url <- remote_binary_url self ;;
               local_filename <- urlretrieve remote_url ;;
               os_makedirs (Path.dirname p) ;;;
               shutil_move local_filename p ;;;
               fix_file_permissions p ;;;
               LOGGER_info "Downloaded %s from %s to %s and then moved to %s"
                 [ArgStr (binary_name self); ArgStr remote_url;
                  ArgStr local_filename; ArgStr p] ;;;
               ret p)%py (set_fetched l w)).
  { intros l. apply download_binary_missing; [|exact Hex].
    apply (cached_binary_path_same_environ self w); [reflexivity|exact Hp]. }
  assert (Hurl' : forall l, remote_binary_url self (set_fetched l w)
                            = (Ok url, set_fetched l w)).
  { intros l. rewrite remote_binary_url_eq in Hurl |- *.
    injection Hurl as ->. reflexivity. }
  assert (Hw : set_fetched (fetched w) w = w) by (destruct w; reflexivity).
  split.
  - intros He.
    assert (Hfail : forall l, download_binary self (set_fetched l w)
                              = (Err e, set_fetched (l ++ [url]) w)).
    { intros l. rewrite Hstep, (bind_Ok _ _ _ _ _ (Hurl' l)).
      unfold bind, urlretrieve. cbn [urlopen set_fetched]. rewrite He.
      reflexivity. }
    split.
    + rewrite <- Hw at 1. apply Hfail.
    + rewrite Hfail, <- app_assoc. reflexivity.
  - intros partial He.
    assert (Hd : download_binary self w
                 = (Err e,
                    set_fs (<[tempname w (ntemp w) := File 384 partial]> (fs w))
                      (set_ntemp (S (ntemp w))
                         (set_fetched (fetched w ++ [url]) w)))).
    { rewrite <- Hw at 1. rewrite Hstep, (bind_Ok _ _ _ _ _ (Hurl' _)), Hw.
      unfold bind, urlretrieve. rewrite He. reflexivity. }
    split; [exact Hd|]. intros Hne. rewrite Hd. cbn [snd fs set_fs].
    rewrite lookup_insert_ne by exact Hne. exact Hex.
Qed.

Lemma download_binary_failed_fetch_witness :
  let w := Hosts.host Hosts.env_xdg ∅ Hosts.serve_none 0 in
  let url := "https://storage.googleapis.com/pre-commit-assets/foo/1.0/bin/foo" in
  download_binary Hosts.foo w = (Err (URLError url), set_fetched ([] ++ [url]) w).
Proof.
  intros w url.
  assert (H1 : cached_binary_path Hosts.foo w = (Ok "/tmp/c/foo/1.0/foo", w))
    by (vm_compute; reflexivity).
  assert (H2 : fs w !! "/tmp/c/foo/1.0/foo" = None) by (vm_compute; reflexivity).
  assert (H3 : remote_binary_url Hosts.foo w = (Ok url, w))
    by (vm_compute; reflexivity).
  destruct (download_binary_failed_fetch Hosts.foo w _ url (URLError url) H1 H2 H3)
    as [H _].
  apply H. reflexivity.
Defined.

(** X13.  When the cache path is free, [download_binary] makes exactly one
    request, to the URL that [remote_binary_url] gives (the override URL if
    it is a non-empty string, else the default one), whether the call then
    returns or raises. *)
Theorem download_binary_one_request self w p :
  cached_binary_path self w = (Ok p, w) ->
  fs w !! p = None ->
  fetched (snd (download_binary self w))
  = fetched w ++ [if_truthy (override_url self) id
                    (spec_default_url (binary_name self) (version self))].
Proof.
  intros Hp Hex. rewrite (download_binary_missing _ _ _ Hp Hex).
  rewrite (bind_Ok _ _ _ _ _ (remote_binary_url_eq self w)).
  set (url := if_truthy _ _ _). unfold bind at 1.
  destruct (urlretrieve url w) as [[tmp|e] w1] eqn:Hget;
    pose proof (urlretrieve_inv _ _ _ _ Hget) as (_ & Hf & _).
  - destruct ((os_makedirs (Path.dirname p) ;;;
               shutil_move tmp p ;;;
               fix_file_permissions p ;;;
               LOGGER_info "Downloaded %s from %s to %s and then moved to %s"
                 [ArgStr (binary_name self); ArgStr url; ArgStr tmp; ArgStr p] ;;;
               ret p)%py w1) as [r w'] eqn:Htail.
    apply download_tail_no_fetch in Htail. unfold keeps in Htail.
    cbn [snd]. congruence.
  - exact Hf.
Qed.

Lemma download_binary_one_request_witness :
  fetched (snd (download_binary
                  (with_override_url (Some "https://example.com/foo") Hosts.foo)
                  (Hosts.host Hosts.env_xdg ∅ Hosts.serve_none 0)))
  = [] ++ ["https://example.com/foo"].
Proof.
  apply (download_binary_one_request
           (with_override_url (Some "https://example.com/foo") Hosts.foo)
           (Hosts.host Hosts.env_xdg ∅ Hosts.serve_none 0) "/tmp/c/foo/1.0/foo");
    reflexivity.
Defined.

(** A download that returned after finding the cache path free, step by
    step: the body that the URL served was written to the temporary file,
    the directories were made, the file was moved onto the cache path, and
    its mode was set unless [chmod] was refused. *)
Lemma download_binary_installed self w p w' :
  cached_binary_path self w = (Ok p, w) ->
  fs w !! p = None ->
  Path.all_sep p = false ->
  download_binary self w = (Ok p, w') ->
  exists url body w2,
    remote_binary_url self w = (Ok url, w)
    /\ urlopen w url = Served body
    /\ os_makedirs (Path.dirname p) (snd (urlretrieve url w)) = (Ok tt, w2)
    /\ fs w' =
         (if chmod_denied w p then id else <[p := File 493 body]>)
           (<[p := File 384 body]> (delete (tempname w (ntemp w)) (fs w2))).
Proof.
  intros Hp Hex Hall H.
  rewrite (download_binary_missing _ _ _ Hp Hex) in H.
  apply bind_inv_Ok in H as (url & wa & Hurl & H).
  pose proof Hurl as Hurl'. rewrite remote_binary_url_eq in Hurl'.
  injection Hurl' as _ <-.
  apply bind_inv_Ok in H as (tmp & w1 & Hget & H).
  apply bind_inv_Ok in H as ([] & w2 & Hmk & H).
  apply bind_inv_Ok in H as ([] & w3 & Hmv & H).
  apply bind_inv_Ok in H as ([] & w4 & Hfix & H).
  apply bind_inv_Ok in H as ([] & w5 & Hlog & H).
  injection H as <-.
  destruct (urlretrieve_Ok_inv _ _ _ _ Hget) as (body & Hbody & Htmp & Hfs1).
  exists url, body, w2. split; [exact Hurl|]. split; [exact Hbody|].
  split; [rewrite Hget; exact Hmk|].
  destruct (os_makedirs_lookup _ _ _ _ tmp Hmk) as [_ Kkeep].
  destruct (os_makedirs_lookup _ _ _ _ p Hmk) as [Ksame _].
  assert (Htmp2 : fs w2 !! tmp = Some (File 384 body)).
  { apply Kkeep. rewrite Hfs1. apply lookup_insert_eq. }
  assert (Hp2 : is_dir (fs w2 !! p) = false).
  { rewrite Ksame by (apply not_own_parent, Hall). rewrite Hfs1.
    destruct (decide (tmp = p)) as [->|Hne].
    - rewrite lookup_insert_eq. reflexivity.
    - rewrite lookup_insert_ne, Hex by exact Hne. reflexivity. }
  pose proof (shutil_move_file _ _ _ _ _ _ Hmv Htmp2 Hp2) as Hfs3.
  assert (Hden : chmod_denied w3 p = chmod_denied w p).
  { apply urlretrieve_inv in Hget as (G & _).
    apply os_makedirs_outside in Hmk as (K & _).
    apply shutil_move_outside in Hmv as (V & _).
    rewrite (outside_chmod_denied _ _ V), (outside_chmod_denied _ _ K),
      (outside_chmod_denied _ _ G). reflexivity. }
  rewrite (fix_file_permissions_eq _ _ (proj2 (shutil_move_Ok_nul _ _ _ _ Hmv)))
    in Hfix.
  injection Hfix as <-.
  apply LOGGER_log_outside in Hlog as (_ & -> & _).
  assert (Hp3 : fs w3 !! p = Some (File 384 body)).
  { rewrite Hfs3. apply lookup_insert_eq. }
  rewrite <- Htmp, Hp3, Hden.
  destruct (chmod_denied w p); cbn [fs set_fs set_records id]; rewrite Hfs3;
    reflexivity.
Qed.





(** X15.  The body is moved into place, not copied: after a download that
    found the cache path free and returned, no entry is left under the name
    of the temporary file (unless that name is the cache path itself). *)
Theorem download_binary_moves_temporary self w p w' :
  cached_binary_path self w = (Ok p, w) ->
  fs w !! p = None ->
  Path.all_sep p = false ->
  tempname w (ntemp w) <> p ->
  download_binary self w = (Ok p, w') ->
  fs w' !! tempname w (ntemp w) = None.
Proof.
  intros Hp Hex Hall Hne H.
  destruct (download_binary_installed _ _ _ _ Hp Hex Hall H)
    as (url & body & w2 & _ & _ & _ & ->).
  destruct (chmod_denied w p); cbn [id];
    rewrite !lookup_insert_ne, lookup_delete_eq by congruence; reflexivity.
Qed.

Lemma download_binary_moves_temporary_witness :
  let w := Hosts.host Hosts.env_xdg ∅ Hosts.serve_all 0 in
  fs (snd (download_binary Hosts.foo w)) !! tempname w (ntemp w) = None.
Proof.
  intros w.
  apply (download_binary_moves_temporary Hosts.foo w "/tmp/c/foo/1.0/foo"
           (snd (download_binary Hosts.foo w)));
    try (vm_compute; reflexivity).
  vm_compute. discriminate.
Defined.





(** ** Execution: the set-up warning, and what the log can influence *)

Lemma warn_unconfigured_eq self w :
  warn_unconfigured self w =
    (Ok tt,
     if _handle_arguments_called self && _add_arguments_called self
     then w else set_records (records w ++ [setup_warning]) w).
Proof.
  unfold warn_unconfigured. cbn [forallb id].
  rewrite andb_true_r.
  destruct (_handle_arguments_called self && _add_arguments_called self);
    reflexivity.
Qed.

Lemma add_arguments_marks self parser w :
  _add_arguments_called (add_self (add_arguments self parser w)) = true
  /\ _handle_arguments_called (add_self (add_arguments self parser w))
     = _handle_arguments_called self.
Proof.
  rewrite add_arguments_eq. cbv zeta.
  destruct (registered (path_option self) parser); [split; reflexivity|].
  destruct (fst (cached_binary_path self w));
    [destruct (registered (url_option self) parser)|]; split; reflexivity.
Qed.

(** X18.  [run_binary] logs its set-up warning, before anything else,
    exactly when [add_arguments] or [handle_arguments] has not been called
    on the instance.  The two calls may come in either order, and
    [add_arguments] counts even when it raised; after both, [run_binary] is
    just the rest of its body, and after only one of them (or none) the rest
    of the body runs with the warning appended to the log. *)
Theorem run_binary_setup_warning self args co ch enc kw w parser wp ns :
  let rest s :=
    (binary_path <- resolve_binary_path s ;;
     kwargs' <- translate_capture co kw ;;
     subprocess_run (binary_path :: args) ch enc kwargs')%py in
  let warned := set_records (records w ++ [setup_warning]) w in
  let added := add_self (add_arguments self parser wp) in
  run_binary (handle_arguments added ns) args co ch enc kw w
    = rest (handle_arguments added ns) w
  /\ run_binary (add_self (add_arguments (handle_arguments self ns) parser wp))
                args co ch enc kw w
     = rest (add_self (add_arguments (handle_arguments self ns) parser wp)) w
  /\ run_binary (__init__ (binary_name self) (version self)) args co ch enc kw w
     = rest (__init__ (binary_name self) (version self)) warned
  /\ run_binary (handle_arguments (__init__ (binary_name self) (version self)) ns)
                args co ch enc kw w
     = rest (handle_arguments (__init__ (binary_name self) (version self)) ns) warned
  /\ run_binary (add_self (add_arguments (__init__ (binary_name self) (version self))
                             parser wp))
                args co ch enc kw w
     = rest (add_self (add_arguments (__init__ (binary_name self) (version self))
                         parser wp)) warned.
Proof.
  cbv zeta. rewrite !run_binary_eq, !warn_unconfigured_eq. cbn [snd].
  pose proof (add_arguments_marks self parser wp) as [A1 _].
  pose proof (add_arguments_marks (handle_arguments self ns) parser wp) as [B1 B2].
  pose proof (add_arguments_marks (__init__ (binary_name self) (version self))
                parser wp) as [C1 C2].
  cbn [_handle_arguments_called _add_arguments_called handle_arguments __init__] in *.
  rewrite A1, B1, B2, C1, C2. cbn [andb].
  repeat split.
Qed.

(** *** Log records never steer the program *)

Ltac same_fields :=
  let E := fresh "E" in
  intros [] [] E;
  unfold same_but_records, forget_records, set_records in E; cbn in E;
  injection E as -> -> -> -> -> -> -> -> -> -> -> ->.

Lemma same_but_records_refl w : same_but_records w w.
Proof. reflexivity. Qed.

Lemma same_but_records_fields w1 w2 :
  same_but_records w1 w2 ->
  fs w1 = fs w2 /\ fetched w1 = fetched w2 /\ spawned w1 = spawned w2.
Proof. revert w1 w2. same_fields. auto. Qed.

Lemma log_blind_ret {A} (a : A) : log_blind (ret a).
Proof. intros w1 w2 E. auto. Qed.

Lemma log_blind_raise {A} e : log_blind (@raise A e).
Proof. intros w1 w2 E. auto. Qed.

Lemma log_blind_lift {A} (x : Result A) : log_blind (lift x).
Proof. intros w1 w2 E. auto. Qed.

Lemma log_blind_bind {A B} (m : M A) (k : A -> M B) :
  log_blind m -> (forall a, log_blind (k a)) -> log_blind (bind m k).
Proof.
  intros Hm Hk w1 w2 E. unfold bind.
  destruct (Hm w1 w2 E) as [H1 H2].
  destruct (m w1) as [[a1|e1] w1'], (m w2) as [[a2|e2] w2'];
    cbn [fst snd] in *; try discriminate.
  - injection H1 as ->. apply Hk, H2.
  - injection H1 as ->. auto.
Qed.

Lemma log_blind_if_truthy {A} o (t : string -> M A) (e : M A) :
  (forall s, log_blind (t s)) -> log_blind e -> log_blind (if_truthy o t e).
Proof. intros Ht He. unfold if_truthy. destruct o as [[|c s]|]; cbn; auto. Qed.

Lemma log_blind_except_OSError {A} (m : M A) (h : exn -> M A) :
  log_blind m -> (forall e, log_blind (h e)) -> log_blind (except_OSError m h).
Proof.
  intros Hm Hh w1 w2 E. unfold except_OSError.
  destruct (Hm w1 w2 E) as [H1 H2].
  destruct (m w1) as [[a1|e1] w1'], (m w2) as [[a2|e2] w2'];
    cbn [fst snd] in *; try discriminate.
  - injection H1 as ->. auto.
  - injection H1 as ->. destruct e2; auto. apply Hh, H2.
Qed.

Lemma log_blind_LOGGER_log l m a : log_blind (LOGGER_log l m a).
Proof. same_fields. split; reflexivity. Qed.

Lemma log_blind_os_environ_getitem key : log_blind (os_environ_getitem key).
Proof.
  same_fields. unfold os_environ_getitem. cbn [environ].
  destruct (_ !! key); split; reflexivity.
Qed.

Lemma log_blind_os_environ_get key dflt : log_blind (os_environ_get key dflt).
Proof. same_fields. split; reflexivity. Qed.

Lemma log_blind_os_path_exists p : log_blind (os_path_exists p).
Proof. same_fields. split; reflexivity. Qed.

Lemma log_blind_urlretrieve url : log_blind (urlretrieve url).
Proof.
  same_fields. unfold urlretrieve. cbn [urlopen].
  destruct (_ url); split; reflexivity.
Qed.

Lemma log_blind_mkdir_all ps under_file : log_blind (mkdir_all under_file ps).
Proof.
  revert under_file. induction ps as [|p ps IH]; intros under_file;
    cbn [mkdir_all]; [apply log_blind_ret|].
  intros w1 w2 E.
  destruct (Path.has_nul p); [auto|]. destruct under_file; [auto|].
  pose proof (IH false) as IHf. pose proof (IH true) as IHt.
  revert w1 w2 E IHf IHt. same_fields. intros IHf IHt. cbn [fs mkdir_denied umask].
  match goal with |- context [?m !! p] => destruct (m !! p) as [[]|] end.
  - destruct ps; [split; reflexivity|]. apply IHt. reflexivity.
  - apply IHf. reflexivity.
  - match goal with |- context [if ?b then _ else _] => destruct b end;
      [split; reflexivity|]. apply IHf. reflexivity.
Qed.

Lemma log_blind_os_makedirs name : log_blind (os_makedirs name).
Proof.
  unfold os_makedirs. destruct (Path.is_empty name);
    [apply log_blind_raise|apply log_blind_mkdir_all].
Qed.

Lemma log_blind_shutil_move src dst : log_blind (shutil_move src dst).
Proof.
  same_fields. unfold shutil_move. cbn [fs rename_denied].
  destruct (Path.has_nul src || Path.has_nul dst); [split; reflexivity|].
  destruct (_ !! src) as [[]|]; try (split; reflexivity).
  destruct (_ && _); [split; reflexivity|].
  destruct (_ src _); split; reflexivity.
Qed.

Lemma log_blind_os_chmod path mode : log_blind (os_chmod path mode).
Proof.
  same_fields. unfold os_chmod. cbn [fs chmod_denied].
  destruct (Path.has_nul path); [split; reflexivity|].
  destruct (_ !! path); [destruct (_ path)|]; split; reflexivity.
Qed.

Lemma log_blind_subprocess_run cmd check encoding kwargs :
  log_blind (subprocess_run cmd check encoding kwargs).
Proof.
  same_fields. unfold subprocess_run. cbn [popen fs].
  destruct (_ _ (mkSpawn cmd encoding kwargs)); [destruct (_ && _)|];
    split; reflexivity.
Qed.

Lemma log_blind_download_binary self : log_blind (download_binary self).
Proof.
  unfold download_binary, cached_binary_path, cached_binary_root,
    remote_binary_url, fix_file_permissions, LOGGER_info, LOGGER_warning.
  repeat first
    [ apply log_blind_bind; [|intros ?]
    | apply log_blind_ret
    | apply log_blind_lift
    | apply log_blind_if_truthy; [intros ?|]
    | apply log_blind_except_OSError; [|intros ?]
    | apply log_blind_LOGGER_log
    | apply log_blind_os_environ_getitem
    | apply log_blind_os_environ_get
    | apply log_blind_os_path_exists
    | apply log_blind_urlretrieve
    | apply log_blind_os_makedirs
    | apply log_blind_shutil_move
    | apply log_blind_os_chmod
    | match goal with |- log_blind (if ?b then _ else _) => destruct b end ].
Qed.

Lemma log_blind_launch self args co ch enc kw :
  log_blind
    (binary_path <- resolve_binary_path self ;;
     kwargs' <- translate_capture co kw ;;
     subprocess_run (binary_path :: args) ch enc kwargs')%py.
Proof.
  apply log_blind_bind.
  - unfold resolve_binary_path. apply log_blind_if_truthy.
    + intros s. apply log_blind_ret.
    + apply log_blind_download_binary.
  - intros p. apply log_blind_bind.
    + unfold translate_capture. destruct co; [destruct (_ || _)|];
        first [apply log_blind_raise|apply log_blind_ret].
    + intros kw'. apply log_blind_subprocess_run.
Qed.

(** The part of [run_binary] after the warning looks at the name, the
    version and the overrides of the instance only. *)
Lemma launch_fields self1 self2 :
  binary_name self1 = binary_name self2 ->
  version self1 = version self2 ->
  override_path self1 = override_path self2 ->
  override_url self1 = override_url self2 ->
  resolve_binary_path self1 = resolve_binary_path self2.
Proof.
  destruct self1, self2. cbn. intros -> -> -> ->. reflexivity.
Qed.

(** X19.  The set-up warning is not fatal and changes nothing but the log:
    two instances that agree on name, version and overrides, whether or not
    [add_arguments] and [handle_arguments] were called on them, get the same
    result from [run_binary] on the same host, with the same file system,
    the same requests and the same child processes afterwards; the hosts
    they leave differ in their log records at most. *)
Theorem run_binary_setup_irrelevant self1 self2 args co ch enc kw w :
  binary_name self1 = binary_name self2 ->
  version self1 = version self2 ->
  override_path self1 = override_path self2 ->
  override_url self1 = override_url self2 ->
  fst (run_binary self1 args co ch enc kw w) = fst (run_binary self2 args co ch enc kw w)
  /\ same_but_records (snd (run_binary self1 args co ch enc kw w))
                      (snd (run_binary self2 args co ch enc kw w))
  /\ fs (snd (run_binary self1 args co ch enc kw w))
     = fs (snd (run_binary self2 args co ch enc kw w))
  /\ fetched (snd (run_binary self1 args co ch enc kw w))
     = fetched (snd (run_binary self2 args co ch enc kw w))
  /\ spawned (snd (run_binary self1 args co ch enc kw w))
     = spawned (snd (run_binary self2 args co ch enc kw w)).
Proof.
  intros Hn Hv Hp Hu. rewrite !run_binary_eq.
  rewrite (launch_fields self1 self2 Hn Hv Hp Hu).
  assert (E : same_but_records (snd (warn_unconfigured self1 w))
                               (snd (warn_unconfigured self2 w))).
  { rewrite !warn_unconfigured_eq. cbn [snd].
    destruct (_ && _), (_ && _); destruct w; reflexivity. }
  destruct (log_blind_launch self2 args co ch enc kw _ _ E) as [H1 H2].
  split; [exact H1|]. split; [exact H2|].
  apply same_but_records_fields, H2.
Qed.

Lemma run_binary_setup_irrelevant_witness :
  let w := Hosts.host Hosts.env_xdg ∅ Hosts.serve_all 1 in
  fst (run_binary Hosts.foo ["--version"] true true "UTF-8" ∅ w)
  = fst (run_binary (handle_arguments (mark_add_arguments_called Hosts.foo) ∅)
           ["--version"] true true "UTF-8" ∅ w).
Proof.
  intros w.
  apply (run_binary_setup_irrelevant Hosts.foo
           (handle_arguments (mark_add_arguments_called Hosts.foo) ∅)
           ["--version"] true true "UTF-8" ∅ w);
    vm_compute; reflexivity.
Defined.

(** X20.  Once the binary path is resolved and the capture options do not
    conflict, [run_binary] starts exactly one child process, whatever
    [check] is and however the child ends.  Its command is the binary path
    followed by the arguments in their order, its encoding is the one
    given, and its keyword arguments are the caller's, passed through
    untouched, with stdout and stderr set to pipes when capture is
    enabled. *)
Theorem run_binary_starts_one_child self args co ch enc kw w p w1 :
  resolve_binary_path self (snd (warn_unconfigured self w)) = (Ok p, w1) ->
  (co = true -> kw !! "stdout" = None /\ kw !! "stderr" = None) ->
  exists kw',
    spawned (snd (run_binary self args co ch enc kw w))
      = spawned w ++ [mkSpawn (p :: args) enc kw']
    /\ (forall k, k <> "stdout" -> k <> "stderr" -> kw' !! k = kw !! k)
    /\ (co = false -> kw' = kw)
    /\ (co = true -> kw' !! "stdout" = Some PIPE /\ kw' !! "stderr" = Some PIPE).
Proof.
  intros Hres Hco. rewrite run_binary_eq, (bind_Ok _ _ _ _ _ Hres).
  pose proof (resolve_binary_path_no_spawn self _ _ _ Hres) as S1.
  unfold keeps in S1.
  destruct (warn_unconfigured_ok self w) as (_ & _ & _ & _ & W4).
  rewrite W4 in S1.
  assert (Hspawn : forall kw',
            spawned (snd (subprocess_run (p :: args) ch enc kw' w1))
            = spawned w ++ [mkSpawn (p :: args) enc kw']).
  { intros kw'. unfold subprocess_run.
    destruct (popen w1 _ _); [destruct (_ && _)|]; cbn; rewrite S1; reflexivity. }
  unfold bind, translate_capture, ret. destruct co.
  - destruct (Hco eq_refl) as [Ho He]. rewrite Ho, He. cbn [bool_decide orb].
    rewrite !bool_decide_eq_false_2 by (intros [? ?]; discriminate).
    cbn [orb]. eexists. split; [apply Hspawn|].
    split; [|split; [discriminate|]].
    + intros k K1 K2. rewrite !lookup_insert_ne by congruence. reflexivity.
    + intros _. rewrite lookup_insert_eq, lookup_insert_ne, lookup_insert_eq by done.
      auto.
  - exists kw. split; [apply Hspawn|]. split; [reflexivity|].
    split; [reflexivity|discriminate].
Qed.

Lemma run_binary_starts_one_child_witness :
  let self := with_override_path (Some "/usr/local/bin/foo") Hosts.foo in
  let w := Hosts.host Hosts.env_xdg ∅ Hosts.serve_all 1 in
  exists kw',
    spawned (snd (run_binary self ["run"; "--all"] true false "UTF-8"
                    {[ "cwd" := KwStr "/src" ]} w))
      = spawned w ++ [mkSpawn ("/usr/local/bin/foo" :: ["run"; "--all"]) "UTF-8" kw']
    /\ (forall k, k <> "stdout" -> k <> "stderr" ->
                  kw' !! k = ({[ "cwd" := KwStr "/src" ]} : gmap string kwval) !! k)
    /\ (true = false -> kw' = {[ "cwd" := KwStr "/src" ]})
    /\ (true = true -> kw' !! "stdout" = Some PIPE /\ kw' !! "stderr" = Some PIPE).
Proof.
  intros self w.
  apply (run_binary_starts_one_child self ["run"; "--all"] true false "UTF-8"
           {[ "cwd" := KwStr "/src" ]} w "/usr/local/bin/foo"
           (snd (warn_unconfigured self w))).
  - reflexivity.
  - intros _. split; vm_compute; reflexivity.
Defined.
